(** * generate-pdf-docs.py: a shallow embedding and its properties

    The script walks a directory tree, collects the [*.md] files, converts
    each one with markdown2, concatenates the results behind a table of
    contents and hands the composite HTML document to WeasyPrint.

    The embedding follows the script top to bottom:
    - [PyStr]: the [str] methods and the regular-expression classes that
      [sanitize_anchor] uses;
    - [PyPath]: [pathlib] paths as their [parts] tuple, with the ordering
      that [sorted] applies to them;
    - [Script]: the file system, the console, the exceptions and the body
      of [create_pdf_from_repo] and of the [__main__] block.

    Definitions come first (Part I), their properties after (Part II). *)

From Stdlib Require Import Ascii String DecimalString DecimalNat.
From stdpp Require Import base tactics option list sorting strings gmap.

Open Scope string_scope.
Open Scope list_scope.

(** ** Python's [str] as used by the script *)

Module PyStr.

(** Characters are code points; [ascii] holds the code points U+0000 to
    U+00FF, and the classes below are the Unicode ones on that range. *)
Definition code (c : ascii) : N := N_of_ascii c.

Definition between (lo hi : N) (c : ascii) : bool :=
  ((lo <=? code c) && (code c <=? hi))%N.

(** [Py_UNICODE_ISSPACE], which both [\s] and [str.strip] consult. *)
Definition isspace (c : ascii) : bool :=
  between 9 13 c || between 28 32 c || (code c =? 133)%N || (code c =? 160)%N.

(** [Py_UNICODE_ISALNUM]: letters, decimal digits and the other numeric
    characters (superscripts and vulgar fractions on this range). *)
Definition isalnum (c : ascii) : bool :=
  between 48 57 c || between 65 90 c || between 97 122 c
  || (code c =? 170)%N || between 178 179 c || (code c =? 181)%N
  || between 185 186 c || between 188 190 c
  || between 192 214 c || between 216 246 c || between 248 255 c.

(** [\w]: alphanumeric or the underscore. *)
Definition is_word (c : ascii) : bool := isalnum c || (code c =? 95)%N.


(** The letters that have a lower-case form are A-Z, U+00C0-U+00D6 and
    U+00D8-U+00DE; the lower-case form is 32 code points further. *)
Definition lower_char (c : ascii) : ascii :=
  if between 65 90 c || between 192 214 c || between 216 222 c
  then ascii_of_N (code c + 32) else c.

Fixpoint chars (s : string) : list ascii :=
  match s with
  | EmptyString => []
  | String c s' => c :: chars s'
  end.

(** [re.sub(cls, '', s)] for a one-character class: every character of the
    class is deleted. *)
Fixpoint re_sub_delete (cls : ascii → bool) (s : string) : string :=
  match s with
  | EmptyString => EmptyString
  | String c s' =>
      if cls c then re_sub_delete cls s' else String c (re_sub_delete cls s')
  end.

Fixpoint lstrip (s : string) : string :=
  match s with
  | EmptyString => EmptyString
  | String c s' => if isspace c then lstrip s' else s
  end.

Fixpoint rstrip (s : string) : string :=
  match s with
  | EmptyString => EmptyString
  | String c s' =>
      match rstrip s' with
      | EmptyString => if isspace c then EmptyString else String c EmptyString
      | r => String c r
      end
  end.

(** [s.strip()] *)
Definition strip (s : string) : string := rstrip (lstrip s).

(** [s.replace(old, new)] for one-character [old] and [new]. *)
Fixpoint replace (old new : ascii) (s : string) : string :=
  match s with
  | EmptyString => EmptyString
  | String c s' =>
      String (if Ascii.eqb c old then new else c) (replace old new s')
  end.

(** [s.lower()] *)
Fixpoint lower (s : string) : string :=
  match s with
  | EmptyString => EmptyString
  | String c s' => String (lower_char c) (lower s')
  end.

(** The class [[^\w\s-]]. *)
Definition not_word_space_hyphen (c : ascii) : bool :=
  negb (is_word c || isspace c || Ascii.eqb c "-").

(** [s.endswith(suffix)] *)
Definition endswith (s suffix : string) : bool :=
  String.eqb
    (substring (String.length s - String.length suffix)
               (String.length suffix) s)
    suffix
  && Nat.leb (String.length suffix) (String.length s).

(** [sep.join(l)] *)
Fixpoint join (sep : string) (l : list string) : string :=
  match l with
  | [] => ""
  | [x] => x
  | x :: l' => x +:+ sep +:+ join sep l'
  end.

(** [str(n)] for a non-negative [int] *)
Definition str_nat (n : nat) : string :=
  NilEmpty.string_of_uint (Nat.to_uint n).

(** [str(z)] for an [int] *)
Definition str_int (z : Z) : string :=
  if (z <? 0)%Z then "-" +:+ str_nat (Z.to_nat (- z))
  else str_nat (Z.to_nat z).

End PyStr.

Import PyStr.

(** ** [sanitize_anchor] *)

(** [re.sub(r'[^\w\s-]', '', text).strip().replace(' ', '-').lower()] *)
Definition sanitize_anchor (text : string) : string :=
  lower (replace " " "-" (strip (re_sub_delete not_word_space_hyphen text))).

(** What [.replace(' ', '-').lower()] does to one character. *)
Definition after_trim (c : ascii) : ascii :=
  lower_char (if Ascii.eqb c " " then "-"%char else c).

(** ** [sanitize_anchor] on code points

    [PyStr] stops at U+00FF. The module below reads the same expression
    over code points as numbers, with the part of the Unicode character
    database that covers U+0000-U+00FF and two code points beyond:
    U+0130, LATIN CAPITAL LETTER I WITH DOT ABOVE, a letter whose
    lower-case form is the two code points U+0069 U+0307, and U+0307,
    COMBINING DOT ABOVE, a mark that is neither alphanumeric nor
    whitespace. A text with any other code point is outside of what the
    module knows: [sanitize_anchor] answers [None] there. *)

Module Unicode.

Definition covered (c : N) : bool :=
  ((c <=? 255) || (c =? 304) || (c =? 775))%N.

Definition within (lo hi c : N) : bool := ((lo <=? c) && (c <=? hi))%N.

Definition isspace (c : N) : bool :=
  within 9 13 c || within 28 32 c || (c =? 133)%N || (c =? 160)%N.

Definition isalnum (c : N) : bool :=
  within 48 57 c || within 65 90 c || within 97 122 c
  || (c =? 170)%N || within 178 179 c || (c =? 181)%N
  || within 185 186 c || within 188 190 c
  || within 192 214 c || within 216 246 c || within 248 255 c
  || (c =? 304)%N.

Definition is_word (c : N) : bool := isalnum c || (c =? 95)%N.

(** [str.lower] on one character: one code point, or two for U+0130. *)
Definition lower_char (c : N) : list N :=
  if (c =? 304)%N then [105; 775]%N
  else if within 65 90 c || within 192 214 c || within 216 222 c
       then [(c + 32)%N] else [c].

Fixpoint lstrip (l : list N) : list N :=
  match l with
  | [] => []
  | c :: l' => if isspace c then lstrip l' else l
  end.

Fixpoint rstrip (l : list N) : list N :=
  match l with
  | [] => []
  | c :: l' =>
      match rstrip l' with
      | [] => if isspace c then [] else [c]
      | r => c :: r
      end
  end.

Definition strip (l : list N) : list N := rstrip (lstrip l).

(** [re.sub(r'[^\w\s-]', '', text).strip().replace(' ', '-').lower()] *)
Definition sanitize_anchor (text : list N) : option (list N) :=
  if forallb covered text then
    Some (flat_map lower_char
            ((λ c, if (c =? 32)%N then 45%N else c)
             <$> strip (filter (λ c, is_word c || isspace c || (c =? 45)%N = true)
                               text)))
  else None.

End Unicode.

(** ** [pathlib] paths *)

Module PyPath.

(** A path is its [parts] tuple: [("/", "home", "docs")] for [/home/docs],
    [("sub", "b.md")] for [sub/b.md]. *)
Abbreviation path := (list string).

Definition is_absolute (p : path) : bool :=
  match p with
  | "/" :: _ => true
  | _ => false
  end.

(** [str(p)] *)
Definition str_path (p : path) : string :=
  match p with
  | [] => "."
  | "/" :: rest => "/" +:+ join "/" rest
  | _ => join "/" p
  end.

(** [p.name]: the final component, empty for the root. *)
Definition name (p : path) : string :=
  match last p with
  | Some "/" | None => ""
  | Some n => n
  end.

(** [p.relative_to(other)]; [None] stands for the [ValueError] raised when
    [other] is not a leading part of [p]. *)
Fixpoint relative_to (p other : path) : option path :=
  match other, p with
  | [], _ => Some p
  | b :: other', a :: p' =>
      if decide (a = b) then relative_to p' other' else None
  | _ :: _, [] => None
  end.

(** [p.absolute()] in working directory [cwd] *)
Definition absolute (cwd p : path) : path :=
  if is_absolute p then p else cwd ++ p.

(** The order on paths compares the [parts] tuples: the first component
    where they differ decides, by [str] comparison (code point by code
    point); a proper prefix comes first. *)
Fixpoint path_leb (p q : path) : bool :=
  match p, q with
  | [], _ => true
  | _ :: _, [] => false
  | a :: p', b :: q' =>
      if decide (a = b) then path_leb p' q' else String.leb a b
  end.

Definition path_le (p q : path) : Prop := path_leb p q = true.

#[export] Instance path_le_dec : RelDecision path_le.
Proof. intros p q. unfold path_le. apply _. Defined.

(** [p] lies strictly below [root]. *)
Definition below (root p : path) : Prop := root `prefix_of` p ∧ root ≠ p.

#[export] Instance below_dec : RelDecision below.
Proof. intros root p. unfold below. apply _. Defined.

End PyPath.

Import PyPath.

(** ** The text fragments of the composite document *)

Module Html.

(** The double-quote character. *)
Definition dq : string := String (ascii_of_nat 34) EmptyString.

(** The style sheet, [css_content]. *)
Definition css_content : string :=
  "
    @page {
        margin: 2cm;
        @bottom-center {
            content: counter(page);
        }
    }
    body {
        font-family: -apple-system, BlinkMacSystemFont, 'Segoe UI', sans-serif;
        line-height: 1.6;
        color: #333;
    }
    h1, h2, h3, h4, h5, h6 {
        color: #2c3e50;
        page-break-after: avoid;
        margin-top: 1.5em;
        margin-bottom: 0.5em;
    }
    h1 {
        font-size: 28px;
        border-bottom: 3px solid #3498db;
        padding-bottom: 10px;
        page-break-before: always;
    }
    h2 {
        font-size: 22px;
        border-bottom: 1px solid #bdc3c7;
        padding-bottom: 5px;
        margin-top: 2em;
    }
    h3 { font-size: 18px; color: #34495e; }
    h4 { font-size: 16px; color: #34495e; }

    code {
        background: #f8f9fa;
        padding: 2px 4px;
        border-radius: 3px;
        font-family: 'Monaco', 'Menlo', 'Ubuntu Mono', monospace;
        font-size: 0.9em;
    }
    pre {
        background: #f8f9fa;
        padding: 15px;
        border-radius: 5px;
        border-left: 4px solid #3498db;
        overflow-x: auto;
        font-family: 'Monaco', 'Menlo', 'Ubuntu Mono', monospace;
        font-size: 0.85em;
    }
    pre code {
        background: none;
        padding: 0;
    }

    .toc {
        page-break-after: always;
        border: 1px solid #ddd;
        padding: 20px;
        background: #f9f9f9;
    }
    .toc h2 {
        margin-top: 0;
        border-bottom: 2px solid #3498db;
    }
    .toc ul {
        list-style-type: none;
        padding-left: 0;
    }
    .toc li {
        margin: 8px 0;
        padding-left: 20px;
        border-left: 2px solid #ecf0f1;
    }
    .toc a {
        text-decoration: none;
        color: #2c3e50;
    }
    .toc a:hover {
        color: #3498db;
    }

    .file-section {
        margin-top: 40px;
        border-top: 2px solid #ecf0f1;
        padding-top: 20px;
    }
    .file-path {
        background: #3498db;
        color: white;
        padding: 10px 15px;
        border-radius: 5px;
        font-family: monospace;
        font-size: 0.9em;
        margin-bottom: 20px;
    }

    table {
        border-collapse: collapse;
        width: 100%;
        margin: 20px 0;
    }
    th, td {
        border: 1px solid #ddd;
        padding: 12px;
        text-align: left;
    }
    th {
        background: #f8f9fa;
        font-weight: bold;
    }

    blockquote {
        border-left: 4px solid #3498db;
        padding-left: 20px;
        margin: 20px 0;
        font-style: italic;
        background: #f8f9fa;
        padding: 15px 20px;
    }
    ".

(** The opening of the document, up to the opening of the list of the table
    of contents. [abs_root] is [repo_path.absolute()] and [total] is
    [len(md_files)]. *)
Definition html_head (output_name abs_root total : string) : string :=
  "
    <!DOCTYPE html>
    <html>
    <head>
        <meta charset=" +:+ dq +:+ "UTF-8" +:+ dq +:+ ">
        <title>" +:+ output_name +:+ " Documentation</title>
    </head>
    <body>
        <h1>" +:+ output_name +:+ " Documentation</h1>
        <p>Generated from: <code>" +:+ abs_root +:+ "</code></p>
        <p>Total files: " +:+ total +:+ "</p>

        <div class=" +:+ dq +:+ "toc" +:+ dq +:+ ">
            <h2>Table of Contents</h2>
            <ul>
    ".

(** One entry of the table of contents. *)
Definition toc_entry (indent_style anchor relative_path : string) : string :=
  "<li style=" +:+ dq +:+ indent_style +:+ dq +:+ "><a href=" +:+ dq +:+ "#" +:+ anchor +:+ dq +:+ ">" +:+ relative_path +:+ "</a></li>
".

(** The closing of the table of contents. *)
Definition toc_close : string :=
  "
            </ul>
        </div>
    ".

(** One section of the body. *)
Definition file_section (anchor relative_path html_section : string) : string :=
  "
        <div class=" +:+ dq +:+ "file-section" +:+ dq +:+ " id=" +:+ dq +:+ anchor +:+ dq +:+ ">
            <div class=" +:+ dq +:+ "file-path" +:+ dq +:+ ">" +:+ relative_path +:+ "</div>
            " +:+ html_section +:+ "
        </div>
        ".

(** The closing of the document. *)
Definition html_close : string := "</body></html>".

End Html.

Import Html.

(** ** The world the script runs in *)

(** What reading a file as text yields: [open(..., errors='ignore')] and
    [f.read()] give the decoded text, or raise. *)
Inductive read_result :=
  | Text (md_content : string)
  | ReadError (e : string).

(** What a path names. [Directory] is a directory that the scan enters.
    [Special] covers what exists and is neither a regular file nor such a
    directory: a socket, a device, and a symbolic link to a directory where
    the scan meets one. A link is followed otherwise: a link to a regular
    file is a [RegularFile]; a link without a target does not exist. *)
Inductive entry :=
  | RegularFile (r : read_result)
  | Directory
  | Special.

(** The file system is the table of the paths that exist, under the names
    by which the script reaches them, and the working directory. The table
    describes a tree whose entries can all be examined: a [stat] that fails
    for want of permission is not part of it. *)
Record world := World {
  fs : gmap path entry;
  cwd : path;
}.

(** [p.exists()] *)
Definition path_exists (w : world) (p : path) : bool :=
  bool_decide (is_Some (fs w !! p)).

(** [p.is_file()] *)
Definition is_file (w : world) (p : path) : bool :=
  match fs w !! p with
  | Some (RegularFile _) => true
  | _ => false
  end.

(** [p.is_dir()] as the scan asks it: a directory to enter. *)
Definition is_dir (w : world) (p : path) : bool :=
  match fs w !! p with
  | Some Directory => true
  | _ => false
  end.

(** The scan that starts at [root] reaches [p]: [root] and every directory
    between [root] and [p] is a directory to enter. *)
Definition reached (w : world) (root p : path) : Prop :=
  Forall (λ k, is_dir w (take k p) = true)
         (seq (length root) (length p - length root)).

#[export] Instance reached_dec w root p : Decision (reached w root p).
Proof. unfold reached. apply _. Defined.

(** [root.rglob("*" + suffix)]: every path strictly below [root] that the
    scan reaches and whose name ends with [suffix], in the order the
    directory scan gives them; nothing when [root] is not a directory. *)
Definition rglob (w : world) (root : path) (suffix : string) : list path :=
  match fs w !! root with
  | Some Directory =>
      filter (λ p, below root p ∧ reached w root p
                   ∧ endswith (name p) suffix = true)
             (map_to_list (fs w)).*1
  | _ => []
  end.

(** [sorted(l)] on paths *)
Definition sorted (l : list path) : list path := merge_sort path_le l.

(** Lines 24-31: the markdown files below [repo_path], sorted. *)
Definition find_md_files (w : world) (repo_path : path) : list path :=
  sorted (filter (λ md_file, is_file w md_file = true) (rglob w repo_path ".md")).

(** ** Console, exceptions, state *)

(** The lines the script prints, one constructor per [print]; sizes are
    kept in bytes. *)
Inductive message :=
  | Searching (abs_root : path)               (* Searching in: ... *)
  | DirectoryExists (b : bool)                (* Directory exists: ... *)
  | MissingDirectory (repo_path : path)       (* Directory ... does not exist! *)
  | Found (n : nat)                           (* Found n markdown files: *)
  | Listed (relative_path : path)             (*   - ... *)
  | AndMore (n : Z)                           (*   ... and n more files *)
  | NoMarkdown (repo_path : path)             (* No markdown files found in ... *)
  | FilesInDirectory                          (* Files in directory: *)
  | EmptyFile (relative_path : path)          (* Empty file: ... *)
  | ErrorProcessing (md_file : path) (e : string)  (* Error processing ...: e *)
  | GeneratingPDF (target : string)           (* Generating PDF: ... *)
  | Generated (cwd : path) (target : string) (size : nat)  (* Generated: ... *)
  | GenerationFailed                          (* PDF generation failed *)
  | ErrorGeneratingPDF (e : string)           (* Error generating PDF: e *)
  | FinalResults                              (* === Final Results === *)
  | PdfFile (cwd : path) (pdf_file : string) (size : nat).

(** The outcome of a computation: a value, or an exception (an instance of
    [Exception], carried as its text). *)
Inductive result (A : Type) :=
  | Return (a : A)
  | Raise (e : string).
Arguments Return {A} a.
Arguments Raise {A} e.

(** What the run changes: the console, the files of the working directory
    (by name, with their bytes), and the documents handed to the rendering
    engine (target and HTML text). *)
Record state := State {
  console : list message;
  outputs : gmap string string;
  rendered : list (string * string);
}.

Definition M (A : Type) : Type := state → result A * state.

#[export] Instance M_ret : MRet M := λ A a σ, (Return a, σ).

#[export] Instance M_bind : MBind M := λ A B f m σ,
  match m σ with
  | (Return a, σ') => f a σ'
  | (Raise e, σ') => (Raise e, σ')
  end.

Definition raise {A} (e : string) : M A := λ σ, (Raise e, σ).

(** [try: body except Exception as e: handler(e)] *)
Definition try_except {A} (body : M A) (handler : string → M A) : M A := λ σ,
  match body σ with
  | (Return a, σ') => (Return a, σ')
  | (Raise e, σ') => handler e σ'
  end.

Definition print (msg : message) : M unit := λ σ,
  (Return (), State (console σ ++ [msg]) (outputs σ) (rendered σ)).

(** [for x in l: body(x)] *)
Fixpoint for_each {A} (l : list A) (body : A → M unit) : M unit :=
  match l with
  | [] => mret ()
  | x :: l' => body x;; for_each l' body
  end.

(** A [for] loop that updates local variables [s]. *)
Fixpoint for_fold {A S} (l : list A) (s : S) (body : S → A → M S) : M S :=
  match l with
  | [] => mret s
  | x :: l' => s' ← body s x; for_fold l' s' body
  end.

(** [enumerate(l)], counting from [i]. *)
Fixpoint enumerate_from {A} (i : nat) (l : list A) : list (nat * A) :=
  match l with
  | [] => []
  | x :: l' => (i, x) :: enumerate_from (S i) l'
  end.

Definition enumerate {A} (l : list A) : list (nat * A) := enumerate_from 0 l.

(** [p.relative_to(other)], raising where Python does. *)
Definition relative_to_M (p other : path) : M path :=
  match relative_to p other with
  | Some r => mret r
  | None => raise "ValueError"
  end.

(** [open(md_file, 'r', encoding='utf-8', errors='ignore')] and [f.read()] *)
Definition read_text (w : world) (md_file : path) : M string :=
  match fs w !! md_file with
  | Some (RegularFile (Text md_content)) => mret md_content
  | Some (RegularFile (ReadError e)) => raise e
  | Some Directory => raise "IsADirectoryError"
  | Some Special => raise "OSError"
  | None => raise "FileNotFoundError"
  end.

(** [Path(target).exists()] and [Path(target).stat().st_size], in the
    working directory. *)
Definition output_exists (target : string) : M bool := λ σ,
  (Return (bool_decide (is_Some (outputs σ !! target))), σ).

Definition stat_size (target : string) : M nat := λ σ,
  match outputs σ !! target with
  | Some bytes => (Return (String.length bytes), σ)
  | None => (Raise "FileNotFoundError", σ)
  end.

(** [Path(".").glob("*.pdf")]: the entries of the working directory itself
    whose name ends with [.pdf]. *)
Definition glob_pdf : M (list string) := λ σ,
  (Return (filter (λ f, endswith f ".pdf" = true ∧ "/"%char ∉ chars f)
                  (map_to_list (outputs σ)).*1), σ).

(** [Path(".").glob("*.pdf")] in a working directory that also holds the
    symbolic links [links] whose targets do not exist: the scan yields
    their names as well, unless a file has been written under the name
    since. *)
Definition glob_pdf_links (links : list string) : M (list string) := λ σ,
  (Return (filter (λ f, endswith f ".pdf" = true ∧ "/"%char ∉ chars f)
                  ((map_to_list (outputs σ)).*1
                   ++ filter (λ f, outputs σ !! f = None) links)), σ).

(** The state after more lines have been printed. *)
Definition say (σ : state) (msgs : list message) : state :=
  State (console σ ++ msgs) (outputs σ) (rendered σ).

(** ** The script *)

(** What [HTML(string=html).write_pdf(target, stylesheets=[CSS(string=css)])]
    does: it writes the bytes of the document, or raises, in which case it
    may leave something under [target]. *)
Inductive render_result :=
  | Rendered (pdf : string)
  | RenderError (e : string) (partial : option string).

Section Script.

(** [markdown2.markdown(md_content, extras=[...])] with the fixed list of
    extras: the HTML text, or an exception. *)
Variable markdown : string → result string.

Variable weasyprint : string → string → render_result.

Definition write_pdf (html_content target : string) : M unit := λ σ,
  let calls := rendered σ ++ [(target, html_content)] in
  match weasyprint html_content css_content with
  | Rendered pdf =>
      (Return (), State (console σ) (<[target := pdf]> (outputs σ)) calls)
  | RenderError e None => (Raise e, State (console σ) (outputs σ) calls)
  | RenderError e (Some pdf) =>
      (Raise e, State (console σ) (<[target := pdf]> (outputs σ)) calls)
  end.

(** The anchor of the [i]-th file (line 193). *)
Definition anchor_of (i : nat) (relative_path : path) : string :=
  "section-" +:+ str_nat i +:+ "-" +:+ sanitize_anchor (str_path relative_path).

(** An element of [content_sections]. *)
Definition section : Type := string * path * string.

(** Lines 192-227, the body of the loop over [enumerate(md_files)]; the
    local variables it updates are [html_content] and [content_sections]. *)
Definition process_file (w : world) (repo_path : path)
    (vars : string * list section) (item : nat * path)
    : M (string * list section) :=
  let '(html_content, content_sections) := vars in
  let '(i, md_file) := item in
  relative_path ← relative_to_M md_file repo_path;
  let anchor := anchor_of i relative_path in
  let indent_level := (Z.of_nat (length relative_path) - 1)%Z in
  let indent_style := "margin-left: " +:+ str_int (indent_level * 20) +:+ "px;" in
  let html_content :=
    html_content +:+ toc_entry indent_style anchor (str_path relative_path) in
  try_except
    (md_content ← read_text w md_file;
     if decide (strip md_content = "") then
       print (EmptyFile relative_path);;
       mret (html_content, content_sections)
     else
       html_section ← (λ σ, (markdown md_content, σ));
       mret (html_content,
             content_sections ++ [(anchor, relative_path, html_section)]))
    (λ e,
       print (ErrorProcessing md_file e);;
       mret (html_content, content_sections)).

(** Lines 236-242: the sections are appended in the order collected. *)
Definition add_sections (html_content : string)
    (content_sections : list section) : string :=
  foldl (λ html_content '(anchor, relative_path, html_section),
           html_content +:+
           file_section anchor (str_path relative_path) html_section)
        html_content content_sections.

(** Lines 171-245: the composite document. *)
Definition build_html (w : world) (repo_path : path) (output_name : string)
    (md_files : list path) : M string :=
  let html_content :=
    html_head output_name (str_path (absolute (cwd w) repo_path))
              (str_nat (length md_files)) in
  '(html_content, content_sections) ←
    for_fold (enumerate md_files) (html_content, []) (process_file w repo_path);
  let html_content := html_content +:+ toc_close in
  let html_content := add_sections html_content content_sections in
  mret (html_content +:+ html_close).

(** Lines 248-264. *)
Definition generate_pdf (w : world) (output_name html_content : string)
    : M unit :=
  try_except
    (print (GeneratingPDF (output_name +:+ ".pdf"));;
     write_pdf html_content (output_name +:+ ".pdf");;
     let pdf_path := output_name +:+ ".pdf" in
     ex ← output_exists pdf_path;
     if ex : bool then
       size ← stat_size pdf_path;
       print (Generated (cwd w) pdf_path size)
     else print GenerationFailed)
    (λ e, print (ErrorGeneratingPDF e)).

Definition create_pdf_from_repo (w : world) (repo_path : path)
    (output_name : string) : M unit :=
  print (Searching (absolute (cwd w) repo_path));;
  print (DirectoryExists (path_exists w repo_path));;
  if negb (path_exists w repo_path) then
    print (MissingDirectory repo_path)
  else
    let md_files := find_md_files w repo_path in
    print (Found (length md_files));;
    for_each (take 10 md_files)
      (λ f, r ← relative_to_M f repo_path; print (Listed r));;
    (if decide (10 < length md_files) then
       print (AndMore (Z.of_nat (length md_files) - 10))
     else mret ());;
    if decide (md_files = []) then
      print (NoMarkdown repo_path);;
      print FilesInDirectory;;
      for_each (filter (λ item, is_file w item = true) (rglob w repo_path ""))
        (λ item, r ← relative_to_M item repo_path; print (Listed r))
    else
      html_content ← build_html w repo_path output_name md_files;
      generate_pdf w output_name html_content.

(** The two literals of the [__main__] block. *)
Definition docs_root : path :=
  ["/"; "home"; "anarchy1923"; "Projects"; "modelcontextprotocol"; "docs"].
Definition docs_name : string := "MCP-docs".

(** The [__main__] block. *)
Definition main (w : world) : M unit :=
  create_pdf_from_repo w docs_root docs_name;;
  print FinalResults;;
  pdf_files ← glob_pdf;
  for_each pdf_files
    (λ pdf_file, size ← stat_size pdf_file; print (PdfFile (cwd w) pdf_file size)).

(** The [__main__] block in a working directory with the dangling links
    [links]; [main] is the case without any. *)
Definition main_links (links : list string) (w : world) : M unit :=
  create_pdf_from_repo w docs_root docs_name;;
  print FinalResults;;
  pdf_files ← glob_pdf_links links;
  for_each pdf_files
    (λ pdf_file, size ← stat_size pdf_file; print (PdfFile (cwd w) pdf_file size)).

(** *** The loop, file by file

    The definitions below say, without the monad, what one pass of the loop
    contributes; [process_file_run] in Part II connects them to
    [process_file]. *)

(** [md_file.relative_to(repo_path)] for a file found below [repo_path]. *)
Definition relative (repo_path md_file : path) : path :=
  default md_file (relative_to md_file repo_path).

(** What becomes of one file between [try] and [except]. *)
Inductive outcome :=
  | Converted (html_section : string)
  | Blank
  | Failed (e : string).

Definition outcome_of (w : world) (md_file : path) : outcome :=
  match fs w !! md_file with
  | Some (RegularFile (Text md_content)) =>
      if decide (strip md_content = "") then Blank
      else match markdown md_content with
           | Return html_section => Converted html_section
           | Raise e => Failed e
           end
  | Some (RegularFile (ReadError e)) => Failed e
  | Some Directory => Failed "IsADirectoryError"
  | Some Special => Failed "OSError"
  | None => Failed "FileNotFoundError"
  end.

(** The anchor under which the table of contents lists an item. *)
Definition nav_anchor (repo_path : path) (item : nat * path) : string :=
  anchor_of item.1 (relative repo_path item.2).

(** The entry of the table of contents for an item. *)
Definition nav_entry (repo_path : path) (item : nat * path) : string :=
  let relative_path := relative repo_path item.2 in
  toc_entry
    ("margin-left: "
     +:+ str_int ((Z.of_nat (length relative_path) - 1) * 20) +:+ "px;")
    (nav_anchor repo_path item) (str_path relative_path).

(** The element of [content_sections] for an item, if it gets one. *)
Definition section_of (w : world) (repo_path : path) (item : nat * path)
    : option section :=
  match outcome_of w item.2 with
  | Converted html_section =>
      Some (nav_anchor repo_path item, relative repo_path item.2, html_section)
  | _ => None
  end.

(** The line printed for an item, if any. *)
Definition message_of (w : world) (repo_path : path) (item : nat * path)
    : option message :=
  match outcome_of w item.2 with
  | Converted _ => None
  | Blank => Some (EmptyFile (relative repo_path item.2))
  | Failed e => Some (ErrorProcessing item.2 e)
  end.

Definition section_anchor (s : section) : string := s.1.1.

Definition section_text (s : section) : string :=
  file_section s.1.1 (str_path s.1.2) s.2.

(** [''.join(l)] *)
Definition concat_str (l : list string) : string := foldr String.app "" l.

(** The composite document for a list of files. *)
Definition document_of (w : world) (repo_path : path) (output_name : string)
    (md_files : list path) : string :=
  html_head output_name (str_path (absolute (cwd w) repo_path))
            (str_nat (length md_files))
  +:+ concat_str (nav_entry repo_path <$> enumerate md_files)
  +:+ toc_close
  +:+ concat_str (section_text <$> omap (section_of w repo_path) (enumerate md_files))
  +:+ html_close.

Definition document (w : world) (repo_path : path) (output_name : string)
    : string :=
  document_of w repo_path output_name (find_md_files w repo_path).

End Script.

(** The lines printed between the existence test and the emptiness test
    (lines 33-37). *)
Definition discovery_report (w : world) (repo_path : path) : list message :=
  let md_files := find_md_files w repo_path in
  [Found (length md_files)]
  ++ (Listed ∘ relative repo_path <$> take 10 md_files)
  ++ (if decide (10 < length md_files)%nat
      then [AndMore (Z.of_nat (length md_files) - 10)] else []).

(** ** Worlds used in examples *)

Module Examples.

(** A converter and a rendering engine to run the script with. *)
Definition markdown (md_content : string) : result string :=
  Return ("<p>" +:+ md_content +:+ "</p>").

Definition weasyprint (html_content css : string) : render_result :=
  Rendered "%PDF-1.7".


Definition root : path := ["/"; "r"].

Definition initial : state := State [] ∅ [].

(** [a.md], an empty [sub/b.md] and [c.md]. *)
Definition three_files : world :=
  World (list_to_map
           [ (root, Directory);
             (root ++ ["a.md"], RegularFile (Text "# Title

hello"));
             (root ++ ["sub"], Directory);
             (root ++ ["sub"; "b.md"], RegularFile (Text ""));
             (root ++ ["c.md"], RegularFile (Text "## X")) ])
        ["/"; "tmp"].


(** [guide.md] next to a directory [guide]. *)
Definition guide_files : world :=
  World (list_to_map
           [ (root, Directory);
             (root ++ ["guide.md"], RegularFile (Text "guide"));
             (root ++ ["guide"], Directory);
             (root ++ ["guide"; "intro.md"], RegularFile (Text "intro")) ])
        ["/"; "tmp"].

(** A directory without markdown files, and nothing at all. *)
Definition no_markdown : world :=
  World (list_to_map
           [ (root, Directory);
             (root ++ ["notes.txt"], RegularFile (Text "notes")) ])
        ["/"; "tmp"].

Definition nothing : world := World ∅ ["/"; "tmp"].

(** A directory whose only markdown file holds whitespace. *)
Definition only_blank : world :=
  World (list_to_map
           [ (root, Directory);
             (root ++ ["blank.md"], RegularFile (Text "  
")) ])
        ["/"; "tmp"].

(** The root names a regular file. *)
Definition root_is_file : world :=
  World (list_to_map [ (root, RegularFile (Text "# not a directory")) ])
        ["/"; "tmp"].

(** A working directory that already holds a PDF. *)
Definition with_old_pdf : state :=
  State [] (list_to_map [ ("old.pdf", "%PDF-old"); ("notes.txt", "n") ]) [].

End Examples.

(** * Part II: properties *)

(** ** Characters *)

(** Every fact about one character is settled by running through the 256
    code points. *)
Ltac by_code_points c :=
  destruct c as [[] [] [] [] [] [] [] []]; vm_compute;
  try reflexivity; try discriminate; intros;
  try discriminate; try congruence; auto.


Lemma after_trim_not_space c : isspace c = false → isspace (after_trim c) = false.
Proof. by_code_points c. Qed.

Lemma after_trim_no_blank c : after_trim c ≠ " "%char.
Proof. by_code_points c. Qed.

Lemma after_trim_lower c : lower_char (after_trim c) = after_trim c.
Proof. by_code_points c. Qed.





(** ** Strings as lists of characters *)

Lemma chars_inj s t : chars s = chars t → s = t.
Proof.
  revert t. induction s as [|a s IH]; intros [|b t] H; simplify_eq/=; auto.
  f_equal. auto.
Qed.

Lemma chars_app s t : chars (s +:+ t) = chars s ++ chars t.
Proof. induction s as [|a s IH]; simpl; [done|]. by rewrite <- IH. Qed.

Lemma chars_lower s : chars (lower s) = lower_char <$> chars s.
Proof. induction s as [|a s IH]; simpl; [done|]. by rewrite IH. Qed.

Lemma chars_replace old new s :
  chars (replace old new s)
  = (λ c, if Ascii.eqb c old then new else c) <$> chars s.
Proof. induction s as [|a s IH]; simpl; [done|]. by rewrite IH. Qed.

Lemma chars_re_sub_delete cls s :
  chars (re_sub_delete cls s) = filter (λ c, cls c = false) (chars s).
Proof.
  induction s as [|a s IH]; simpl; [done|].
  rewrite filter_cons, <- IH. case_decide; destruct (cls a); done.
Qed.

Lemma chars_lower_replace s :
  chars (lower (replace " " "-" s)) = after_trim <$> chars s.
Proof.
  rewrite chars_lower, chars_replace, <- list_fmap_compose. done.
Qed.


(** ** [strip] *)

Lemma lstrip_suffix s : chars (lstrip s) `suffix_of` chars s.
Proof.
  induction s as [|a s IH]; simpl; [done|].
  destruct (isspace a); [by apply suffix_cons_r|done].
Qed.

Lemma rstrip_prefix s : chars (rstrip s) `prefix_of` chars s.
Proof.
  induction s as [|a s IH]; simpl; [done|].
  destruct (rstrip s) as [|b r] eqn:E.
  - destruct (isspace a); simpl; [apply prefix_nil|].
    apply prefix_cons, prefix_nil.
  - simpl in *. by apply prefix_cons.
Qed.

Lemma head_lstrip s c : head (chars (lstrip s)) = Some c → isspace c = false.
Proof.
  induction s as [|a s IH]; simpl; [done|].
  destruct (isspace a) eqn:E; [done|]. simpl. by intros [= <-].
Qed.

Lemma last_rstrip s c : last (chars (rstrip s)) = Some c → isspace c = false.
Proof.
  induction s as [|a s IH]; simpl; [done|].
  destruct (rstrip s) as [|b r] eqn:E.
  - destruct (isspace a) eqn:Ea; simpl; [done|]. by intros [= <-].
  - simpl in *. done.
Qed.

Lemma head_strip s c : head (chars (strip s)) = Some c → isspace c = false.
Proof.
  unfold strip. intros H. apply (head_lstrip s).
  destruct (rstrip_prefix (lstrip s)) as [k Hk]. rewrite Hk.
  destruct (chars (rstrip (lstrip s))); simplify_eq/=. done.
Qed.

Lemma last_strip s c : last (chars (strip s)) = Some c → isspace c = false.
Proof. apply last_rstrip. Qed.

Lemma strip_sublist s : chars (strip s) `sublist_of` chars s.
Proof.
  unfold strip.
  destruct (rstrip_prefix (lstrip s)) as [k Hk].
  destruct (lstrip_suffix s) as [k' Hk'].
  rewrite Hk', Hk. by apply sublist_inserts_l, sublist_inserts_r.
Qed.











(** *** Agreement with the reading on code points *)











(** Nor does every whitespace character inside the result become a
    hyphen: only the blank does. *)
Example sanitize_anchor_inner_tab :
  sanitize_anchor ("a b" +:+ String "009" "c") = "a-b" +:+ String "009" "c"
  ∧ isspace "009" = true ∧ is_word "009" = false.
Proof. split_and!; reflexivity. Qed.

Example sanitize_anchor_guide :
  sanitize_anchor "docs/Getting Started.md" = "docsgetting-startedmd".
Proof. reflexivity. Qed.

(** Two different paths with one sanitized form. *)
Example sanitize_anchor_collision :
  sanitize_anchor "a/b.md" = sanitize_anchor "ab.md".
Proof. reflexivity. Qed.

(** Whitespace other than the blank stays inside the result. *)
Example sanitize_anchor_tab :
  sanitize_anchor (" a" +:+ String "009" "B ") = "a" +:+ String "009" "b".
Proof. reflexivity. Qed.

(** ** Decimal numerals and anchors *)

Lemma string_of_uint_no_hyphen d :
  "-"%char ∉ chars (NilEmpty.string_of_uint d).
Proof.
  induction d; simpl; [apply not_elem_of_nil|..];
    (intros [?|?]%elem_of_cons; [discriminate|done]).
Qed.

Lemma str_nat_no_hyphen n : "-"%char ∉ chars (str_nat n).
Proof. apply string_of_uint_no_hyphen. Qed.

Lemma str_nat_inj n m : str_nat n = str_nat m → n = m.
Proof.
  unfold str_nat. intros H. apply Unsigned.to_uint_inj.
  pose proof (NilEmpty.usu (Nat.to_uint n)) as Hn.
  rewrite H, NilEmpty.usu in Hn. congruence.
Qed.

(** A numeral is read back from a text up to the first hyphen. *)
Lemma hyphen_splits s1 s2 t1 t2 :
  "-"%char ∉ chars s1 → "-"%char ∉ chars s2 →
  s1 +:+ "-" +:+ t1 = s2 +:+ "-" +:+ t2 → s1 = s2.
Proof.
  revert s2. induction s1 as [|a s1 IH]; intros [|b s2] H1 H2 H; simpl in *.
  - done.
  - injection H as <- _. exfalso. apply H2. apply elem_of_cons; auto.
  - injection H as -> _. exfalso. apply H1. apply elem_of_cons; auto.
  - injection H as -> H. f_equal. apply IH; [| |done].
    + intros ?. apply H1. apply elem_of_cons; auto.
    + intros ?. apply H2. apply elem_of_cons; auto.
Qed.

Lemma anchor_of_index i j p q : anchor_of i p = anchor_of j q → i = j.
Proof.
  unfold anchor_of. intros H.
  apply str_nat_inj, (hyphen_splits _ _ (sanitize_anchor (str_path p))
                                        (sanitize_anchor (str_path q)));
    [apply str_nat_no_hyphen..|].
  by apply (inj (String.app "section-")) in H.
Qed.

(** ** The order on paths *)

Lemma str_leb_trans a b c :
  String.leb a b = true → String.leb b c = true → String.leb a c = true.
Proof.
  rewrite <- !Is_true_true. intros H1 H2.
  exact (transitivity (R := String.le) H1 H2).
Qed.

Lemma str_leb_antisym a b :
  String.leb a b = true → String.leb b a = true → a = b.
Proof.
  rewrite <- !Is_true_true. intros H1 H2.
  exact (anti_symm String.le a b H1 H2).
Qed.

Lemma str_leb_total a b : String.leb a b = true ∨ String.leb b a = true.
Proof.
  rewrite <- !Is_true_true. exact (total String.le a b).
Qed.

#[export] Instance path_le_refl : Reflexive path_le.
Proof.
  intros p. unfold path_le. induction p as [|a p IH]; simpl; [done|].
  by rewrite decide_True.
Qed.

#[export] Instance path_le_total : Total path_le.
Proof.
  intros p. unfold path_le.
  induction p as [|a p IH]; intros [|b q]; simpl; auto.
  destruct (decide (a = b)) as [->|Hab].
  - rewrite decide_True by done. apply IH.
  - rewrite decide_False by congruence. apply str_leb_total.
Qed.

#[export] Instance path_le_antisym : AntiSymm (=) path_le.
Proof.
  intros p. unfold path_le.
  induction p as [|a p IH]; intros [|b q]; simpl; try done.
  destruct (decide (a = b)) as [->|Hab].
  - rewrite decide_True by done. intros H1 H2. f_equal. by apply IH.
  - rewrite decide_False by congruence. intros H1 H2.
    destruct Hab. by apply str_leb_antisym.
Qed.

#[export] Instance path_le_trans : Transitive path_le.
Proof.
  intros p. unfold path_le.
  induction p as [|a p IH]; intros [|b q] [|c r]; simpl; try done.
  destruct (decide (a = b)) as [->|Hab].
  - destruct (decide (b = c)) as [->|Hbc]; [apply IH|done].
  - destruct (decide (b = c)) as [->|Hbc].
    + rewrite decide_False by done. done.
    + intros H1 H2. destruct (decide (a = c)) as [->|Hac].
      * destruct Hab. by apply str_leb_antisym.
      * by apply (str_leb_trans a b c).
Qed.

(** The order is on the components, not on the text of the path: a
    directory's files come before a file whose name extends the
    directory's name by a character below the slash. *)
Example path_order_is_by_parts :
  path_le ["guide"; "intro.md"] ["guide.md"]
  ∧ String.leb (str_path ["guide"; "intro.md"]) (str_path ["guide.md"]) = false.
Proof. split; reflexivity. Qed.

(** ** Discovery *)

Lemma elem_of_paths (m : gmap path entry) p :
  p ∈ (map_to_list m).*1 ↔ is_Some (m !! p).
Proof.
  rewrite list_elem_of_fmap. split.
  - intros [[q e] [-> H]]. apply elem_of_map_to_list in H. by exists e.
  - intros [e H]. exists (p, e). split; [done|]. by apply elem_of_map_to_list.
Qed.

Lemma elem_of_rglob w root suffix p :
  p ∈ rglob w root suffix ↔
  fs w !! root = Some Directory ∧ is_Some (fs w !! p)
  ∧ below root p ∧ endswith (name p) suffix = true ∧ reached w root p.
Proof.
  unfold rglob. destruct (fs w !! root) as [[r| |]|] eqn:E;
    try (split; [by intros ?%elem_of_nil|by intros [? _]]).
  rewrite list_elem_of_filter, elem_of_paths. tauto.
Qed.

Lemma NoDup_rglob w root suffix : NoDup (rglob w root suffix).
Proof.
  unfold rglob. destruct (fs w !! root) as [[r| |]|]; try apply NoDup_nil_2.
  apply NoDup_filter, NoDup_fst_map_to_list.
Qed.

Lemma find_md_files_perm w repo_path :
  find_md_files w repo_path
  ≡ₚ filter (λ md_file, is_file w md_file = true) (rglob w repo_path ".md").
Proof. apply merge_sort_Permutation. Qed.

Lemma elem_of_find_md_files w repo_path p :
  p ∈ find_md_files w repo_path ↔
  fs w !! repo_path = Some Directory ∧ is_file w p = true
  ∧ below repo_path p ∧ endswith (name p) ".md" = true
  ∧ reached w repo_path p.
Proof.
  rewrite find_md_files_perm, list_elem_of_filter, elem_of_rglob.
  split; [tauto|]. intros (? & Hf & ? & ? & ?). split_and!; try done.
  unfold is_file in Hf. destruct (fs w !! p); [by eexists|done].
Qed.

Lemma NoDup_find_md_files w repo_path : NoDup (find_md_files w repo_path).
Proof. rewrite find_md_files_perm. apply NoDup_filter, NoDup_rglob. Qed.

Lemma Sorted_find_md_files w repo_path :
  Sorted path_le (find_md_files w repo_path).
Proof. apply (Sorted_merge_sort path_le). Qed.

(** C4, with the order of [pathlib]. For a root that is a directory, what discovery returns
    are exactly the regular files strictly below the root, at any depth,
    that the scan reaches through directories and whose name ends with
    [.md], each once, in ascending order of their paths as [pathlib] orders
    them: component by component. *)
Theorem find_md_files_spec (w : world) (repo_path : path) :
  fs w !! repo_path = Some Directory →
  (∀ p, p ∈ find_md_files w repo_path ↔
        is_file w p = true ∧ below repo_path p
        ∧ endswith (name p) ".md" = true ∧ reached w repo_path p)
  ∧ NoDup (find_md_files w repo_path)
  ∧ StronglySorted path_le (find_md_files w repo_path).
Proof.
  intros Hroot. split_and!.
  - intros p. rewrite elem_of_find_md_files. tauto.
  - apply NoDup_find_md_files.
  - apply Sorted_StronglySorted; [apply _|apply Sorted_find_md_files].
Qed.

Lemma find_md_files_spec_witness :
  fs Examples.three_files !! Examples.root = Some Directory
  ∧ find_md_files Examples.three_files Examples.root
    = [ ["/"; "r"; "a.md"]; ["/"; "r"; "c.md"]; ["/"; "r"; "sub"; "b.md"] ]
  ∧ StronglySorted path_le (find_md_files Examples.three_files Examples.root).
Proof.
  split; [vm_compute; reflexivity|]. split; [vm_compute; reflexivity|].
  apply (find_md_files_spec Examples.three_files Examples.root).
  vm_compute; reflexivity.
Defined.

(** Where a file and a directory share a stem, the directory's files come
    first. *)
Example find_md_files_guide :
  find_md_files Examples.guide_files Examples.root
  = [ ["/"; "r"; "guide"; "intro.md"]; ["/"; "r"; "guide.md"] ].
Proof. vm_compute. reflexivity. Qed.

(** C4 as stated fails: with [guide.md] next to the directory [guide], what
    discovery returns is not in the lexicographic order of the full paths
    taken as text, where [/r/guide.md] comes before [/r/guide/intro.md]. *)
Lemma find_md_files_not_in_text_order :
  ¬ StronglySorted (λ p q, String.leb (str_path p) (str_path q) = true)
      (find_md_files Examples.guide_files Examples.root).
Proof.
  rewrite find_md_files_guide. intros Hsorted.
  apply StronglySorted_inv in Hsorted as [_ Hfirst].
  apply Forall_cons in Hfirst as [Hle _]. vm_compute in Hle. discriminate Hle.
Qed.

(** A file below something that is not a directory to enter, such as a
    symbolic link to a directory, is not discovered. *)
Example find_md_files_behind_link :
  find_md_files
    (World (list_to_map
              [ (Examples.root, Directory);
                (Examples.root ++ ["link"], Special);
                (Examples.root ++ ["link"; "hidden.md"],
                 RegularFile (Text "hidden"));
                (Examples.root ++ ["seen.md"], RegularFile (Text "seen")) ])
           ["/"; "tmp"])
    Examples.root
  = [ ["/"; "r"; "seen.md"] ].
Proof. vm_compute. reflexivity. Qed.

(** ** Running the monad *)

Lemma say_nil σ : say σ [] = σ.
Proof. destruct σ. unfold say. simpl. by rewrite app_nil_r. Qed.

Lemma say_say σ l1 l2 : say (say σ l1) l2 = say σ (l1 ++ l2).
Proof. unfold say. simpl. by rewrite app_assoc. Qed.

Lemma bind_return {A B} (m : M A) (f : A → M B) σ a σ' :
  m σ = (Return a, σ') → (m ≫= f) σ = f a σ'.
Proof. intros H. unfold mbind, M_bind. by rewrite H. Qed.

Lemma bind_raise {A B} (m : M A) (f : A → M B) σ e σ' :
  m σ = (Raise e, σ') → (m ≫= f) σ = (Raise e, σ').
Proof. intros H. unfold mbind, M_bind. by rewrite H. Qed.

Lemma print_run msg σ : print msg σ = (Return (), say σ [msg]).
Proof. done. Qed.

Lemma str_app_assoc s t u : (s +:+ t) +:+ u = s +:+ t +:+ u.
Proof.
  induction s as [|a s IH]; [done|].
  change (String a ((s +:+ t) +:+ u) = String a (s +:+ t +:+ u)).
  by rewrite IH.
Qed.

Lemma str_app_nil_r s : s +:+ "" = s.
Proof.
  induction s as [|a s IH]; [done|].
  change (String a (s +:+ "") = String a s). by rewrite IH.
Qed.

Lemma concat_str_app l1 l2 :
  concat_str (l1 ++ l2) = concat_str l1 +:+ concat_str l2.
Proof.
  induction l1 as [|x l1 IH]; [done|].
  change (x +:+ concat_str (l1 ++ l2)
          = (x +:+ concat_str l1) +:+ concat_str l2).
  by rewrite IH, str_app_assoc.
Qed.

(** ** Paths below the root *)

Lemma relative_to_app root r : relative_to (root ++ r) root = Some r.
Proof.
  induction root as [|a root IH]; simpl; [by destruct r|].
  by rewrite decide_True.
Qed.

Lemma relative_to_prefix p root :
  root `prefix_of` p → ∃ r, p = root ++ r ∧ relative_to p root = Some r.
Proof. intros [r ->]. exists r. split; [done|apply relative_to_app]. Qed.

Lemma find_md_files_below w repo_path :
  Forall (λ md_file, is_Some (relative_to md_file repo_path))
         (find_md_files w repo_path).
Proof.
  apply Forall_forall. intros p (_ & _ & [Hp _] & _)%elem_of_find_md_files.
  destruct (relative_to_prefix p repo_path Hp) as (r & _ & ->). by eexists.
Qed.

Lemma rglob_below w repo_path suffix :
  Forall (λ item, is_Some (relative_to item repo_path))
         (rglob w repo_path suffix).
Proof.
  apply Forall_forall. intros p (_ & _ & [Hp _] & _)%elem_of_rglob.
  destruct (relative_to_prefix p repo_path Hp) as (r & _ & ->). by eexists.
Qed.

Lemma enumerate_from_app {A} i (l1 l2 : list A) :
  enumerate_from i (l1 ++ l2)
  = enumerate_from i l1 ++ enumerate_from (i + length l1) l2.
Proof.
  revert i. induction l1 as [|x l1 IH]; intros i; simpl.
  - by rewrite Nat.add_0_r.
  - rewrite IH. do 3 f_equal. lia.
Qed.

Lemma enumerate_from_fst {A} i (l : list A) :
  (enumerate_from i l).*1 = seq i (length l).
Proof. revert i. induction l as [|x l IH]; intros i; simpl; [done|]. by rewrite IH. Qed.

Lemma enumerate_from_snd {A} i (l : list A) : (enumerate_from i l).*2 = l.
Proof. revert i. induction l as [|x l IH]; intros i; simpl; [done|]. by rewrite IH. Qed.

Lemma enumerate_from_length {A} i (l : list A) :
  length (enumerate_from i l) = length l.
Proof. revert i. induction l as [|x l IH]; intros i; simpl; [done|]. by rewrite IH. Qed.

Lemma elem_of_enumerate_from {A} i (l : list A) k x :
  (k, x) ∈ enumerate_from i l ↔ (i ≤ k)%nat ∧ l !! (k - i)%nat = Some x.
Proof.
  revert i. induction l as [|y l IH]; intros i; simpl.
  - split; [by intros ?%elem_of_nil|by intros [_ ?]].
  - rewrite elem_of_cons, IH. split.
    + intros [[= -> ->]|[Hle Hl]].
      * split; [lia|]. by rewrite Nat.sub_diag.
      * split; [lia|]. by replace (k - i) with (S (k - S i)) by lia.
    + intros [Hle Hl]. destruct (decide (k = i)) as [->|Hne].
      * left. rewrite Nat.sub_diag in Hl. by simplify_eq/=.
      * right. split; [lia|].
        by replace (k - i) with (S (k - S i)) in Hl by lia.
Qed.

(** ** The loop over the files *)

Section Runs.

Variable markdown : string → result string.
Variable weasyprint : string → string → render_result.

(** One pass of the loop: the entry of the table of contents is appended
    whatever becomes of the file; the section and the printed line depend
    on the outcome. *)
Lemma process_file_run w repo_path html_content content_sections item σ :
  is_Some (relative_to item.2 repo_path) →
  process_file markdown w repo_path (html_content, content_sections) item σ
  = (Return (html_content +:+ nav_entry repo_path item,
             content_sections
             ++ option_list (section_of markdown w repo_path item)),
     say σ (option_list (message_of markdown w repo_path item))).
Proof.
  destruct item as [i md_file]. intros [r Hr]. simpl in Hr.
  unfold process_file, relative_to_M, nav_entry, section_of, nav_anchor,
    message_of, outcome_of, relative, read_text. simpl. rewrite Hr. simpl.
  unfold mbind at 1, M_bind at 1, mret at 1, M_ret at 1.
  unfold try_except, mbind, M_bind, mret, M_ret, raise.
  destruct (fs w !! md_file) as [[[md_content|e]| |]|]; simpl;
    try (rewrite app_nil_r; reflexivity).
  destruct (decide (strip md_content = "")); simpl.
  - by rewrite app_nil_r.
  - destruct (markdown md_content); simpl; [by rewrite say_nil|].
    by rewrite app_nil_r.
Qed.

Lemma process_files_run w repo_path md_files i html_content content_sections σ :
  Forall (λ md_file, is_Some (relative_to md_file repo_path)) md_files →
  for_fold (enumerate_from i md_files) (html_content, content_sections)
           (process_file markdown w repo_path) σ
  = (Return
       (html_content
        +:+ concat_str (nav_entry repo_path <$> enumerate_from i md_files),
        content_sections
        ++ omap (section_of markdown w repo_path) (enumerate_from i md_files)),
     say σ (omap (message_of markdown w repo_path) (enumerate_from i md_files))).
Proof.
  intros Hbelow. revert i html_content content_sections σ.
  induction Hbelow as [|md_file md_files Hrel _ IH];
    intros i html_content content_sections σ.
  - simpl. unfold mret, M_ret. by rewrite str_app_nil_r, app_nil_r, say_nil.
  - cbn [enumerate_from for_fold].
    erewrite bind_return by (by apply process_file_run).
    rewrite IH, say_say. f_equal; [f_equal; f_equal|f_equal].
    + rewrite fmap_cons.
      change (concat_str (?x :: ?l)) with (x +:+ concat_str l).
      by rewrite str_app_assoc.
    + rewrite <- app_assoc. f_equal.
      cbn [omap list_omap]. by destruct (section_of _ _ _ _).
    + cbn [omap list_omap]. by destruct (message_of _ _ _ _).
Qed.

Lemma add_sections_run html_content content_sections :
  add_sections html_content content_sections
  = html_content +:+ concat_str (section_text <$> content_sections).
Proof.
  unfold add_sections. revert html_content.
  induction content_sections as [|[[a r] h] secs IH]; intros html_content.
  - simpl. by rewrite str_app_nil_r.
  - simpl. rewrite IH. unfold section_text at 2. simpl.
    change (concat_str (?x :: ?l)) with (x +:+ concat_str l).
    by rewrite str_app_assoc.
Qed.

(** Lines 171-245 return the composite document and print one line for
    each file they skip. *)
Lemma build_html_run w repo_path output_name md_files σ :
  Forall (λ md_file, is_Some (relative_to md_file repo_path)) md_files →
  build_html markdown w repo_path output_name md_files σ
  = (Return (document_of markdown w repo_path output_name md_files),
     say σ (omap (message_of markdown w repo_path) (enumerate md_files))).
Proof.
  intros Hbelow. unfold build_html, enumerate.
  erewrite bind_return by (by apply process_files_run).
  unfold mret, M_ret, document_of, enumerate. do 2 f_equal.
  rewrite add_sections_run, app_nil_l. by rewrite !str_app_assoc.
Qed.

End Runs.

(** ** The whole run *)

Section WholeRun.

Variable markdown : string → result string.
Variable weasyprint : string → string → render_result.

Lemma list_files_run repo_path (l : list path) σ :
  Forall (λ f, is_Some (relative_to f repo_path)) l →
  for_each l (λ f, r ← relative_to_M f repo_path; print (Listed r)) σ
  = (Return (), say σ (Listed ∘ relative repo_path <$> l)).
Proof.
  intros Hl. revert σ. induction Hl as [|f l [r Hr] _ IH]; intros σ.
  - simpl. unfold mret, M_ret. by rewrite say_nil.
  - cbn [for_each]. erewrite bind_return; last first.
    { unfold relative_to_M. rewrite Hr.
      erewrite bind_return by reflexivity. apply print_run. }
    rewrite IH, say_say. do 2 f_equal.
    rewrite fmap_cons. simpl. unfold relative. by rewrite Hr.
Qed.

(** Lines 248-264. The exception of the rendering engine does not leave
    the [try]. *)
Lemma generate_pdf_run w output_name html_content σ :
  let target := output_name +:+ ".pdf" in
  generate_pdf weasyprint w output_name html_content σ
  = match weasyprint html_content css_content with
    | Rendered pdf =>
        (Return (),
         State (console σ ++ [GeneratingPDF target;
                              Generated (cwd w) target (String.length pdf)])
               (<[target := pdf]> (outputs σ))
               (rendered σ ++ [(target, html_content)]))
    | RenderError e partial =>
        (Return (),
         State (console σ ++ [GeneratingPDF target; ErrorGeneratingPDF e])
               (match partial with
                | Some pdf => <[target := pdf]> (outputs σ)
                | None => outputs σ
                end)
               (rendered σ ++ [(target, html_content)]))
    end.
Proof.
  intros target. unfold generate_pdf, try_except.
  erewrite bind_return by apply print_run.
  unfold mbind at 1, M_bind at 1, write_pdf. simpl. fold target.
  destruct (weasyprint html_content css_content) as [pdf|e [pdf|]]; simpl.
  - unfold mbind, M_bind, output_exists, stat_size; simpl.
    rewrite bool_decide_eq_true_2 by (rewrite lookup_insert_eq; by eexists).
    simpl. rewrite lookup_insert_eq.
    unfold print; simpl. by rewrite <- app_assoc.
  - unfold print; simpl. by rewrite <- app_assoc.
  - unfold print; simpl. by rewrite <- app_assoc.
Qed.

Lemma create_pdf_from_repo_missing w repo_path output_name σ :
  path_exists w repo_path = false →
  create_pdf_from_repo markdown weasyprint w repo_path output_name σ
  = (Return (),
     say σ [Searching (absolute (cwd w) repo_path); DirectoryExists false;
            MissingDirectory repo_path]).
Proof.
  intros Hex. unfold create_pdf_from_repo. rewrite Hex. simpl.
  do 2 erewrite bind_return by apply print_run.
  by rewrite print_run, !say_say.
Qed.

Lemma discovery_run w repo_path {A} (k : M A) σ :
  let md_files := find_md_files w repo_path in
  (print (Found (length md_files));;
   for_each (take 10 md_files)
     (λ f, r ← relative_to_M f repo_path; print (Listed r));;
   (if decide (10 < length md_files)%nat then
      print (AndMore (Z.of_nat (length md_files) - 10))
    else mret ());;
   k) σ
  = k (say σ (discovery_report w repo_path)).
Proof.
  intros md_files. erewrite bind_return by apply print_run.
  erewrite bind_return; last first.
  { apply list_files_run, Forall_take, find_md_files_below. }
  unfold discovery_report. fold md_files.
  destruct (decide (10 < length md_files)%nat).
  - erewrite bind_return by apply print_run. by rewrite !say_say.
  - erewrite bind_return by reflexivity. by rewrite !say_say, app_nil_r.
Qed.

Lemma create_pdf_from_repo_empty w repo_path output_name σ :
  path_exists w repo_path = true →
  find_md_files w repo_path = [] →
  create_pdf_from_repo markdown weasyprint w repo_path output_name σ
  = (Return (),
     say σ ([Searching (absolute (cwd w) repo_path); DirectoryExists true;
             Found 0; NoMarkdown repo_path; FilesInDirectory]
            ++ (Listed ∘ relative repo_path
                <$> filter (λ item, is_file w item = true)
                           (rglob w repo_path "")))).
Proof.
  intros Hex Hnone. unfold create_pdf_from_repo. rewrite Hex. simpl.
  do 2 erewrite bind_return by apply print_run.
  rewrite discovery_run. rewrite decide_True by done.
  unfold discovery_report. rewrite Hnone. simpl.
  do 2 erewrite bind_return by apply print_run.
  rewrite list_files_run; [by rewrite !say_say|].
  apply Forall_forall. intros p [_ Hp]%list_elem_of_filter.
  by apply (proj1 (Forall_forall _ _) (rglob_below w repo_path "")).
Qed.

Lemma create_pdf_from_repo_render w repo_path output_name σ :
  path_exists w repo_path = true →
  find_md_files w repo_path ≠ [] →
  create_pdf_from_repo markdown weasyprint w repo_path output_name σ
  = generate_pdf weasyprint w output_name
      (document markdown w repo_path output_name)
      (say σ ([Searching (absolute (cwd w) repo_path); DirectoryExists true]
              ++ discovery_report w repo_path
              ++ omap (message_of markdown w repo_path)
                      (enumerate (find_md_files w repo_path)))).
Proof.
  intros Hex Hsome. unfold create_pdf_from_repo. rewrite Hex. simpl.
  do 2 erewrite bind_return by apply print_run.
  rewrite discovery_run. rewrite decide_False by done.
  erewrite bind_return by apply build_html_run, find_md_files_below.
  by rewrite !say_say.
Qed.

End WholeRun.

(** ** Anchors of the items of one run *)

Lemma NoDup_enumerate_from {A} i (l : list A) : NoDup (enumerate_from i l).
Proof.
  apply (NoDup_fmap_1 fst). rewrite enumerate_from_fst. apply NoDup_seq.
Qed.

Lemma enumerate_from_functional {A} i (l : list A) k x y :
  (k, x) ∈ enumerate_from i l → (k, y) ∈ enumerate_from i l → x = y.
Proof.
  intros [_ Hx]%elem_of_enumerate_from [_ Hy]%elem_of_enumerate_from.
  congruence.
Qed.

Lemma nav_anchor_inj repo_path i (md_files : list path) item1 item2 :
  item1 ∈ enumerate_from i md_files → item2 ∈ enumerate_from i md_files →
  nav_anchor repo_path item1 = nav_anchor repo_path item2 → item1 = item2.
Proof.
  destruct item1 as [k f], item2 as [k' g]. unfold nav_anchor. simpl.
  intros H1 H2 ->%anchor_of_index. f_equal.
  by apply (enumerate_from_functional i md_files k').
Qed.

Lemma NoDup_nav_anchors repo_path i (md_files : list path) :
  NoDup (nav_anchor repo_path <$> enumerate_from i md_files).
Proof.
  apply NoDup_fmap_2_strong; [|apply NoDup_enumerate_from].
  intros x y Hx Hy. by apply (nav_anchor_inj repo_path i md_files).
Qed.

Section Sections.

Variable markdown : string → result string.

Lemma section_of_anchor w repo_path item s :
  section_of markdown w repo_path item = Some s →
  section_anchor s = nav_anchor repo_path item.
Proof.
  unfold section_of. destruct (outcome_of markdown w item.2); [|done..].
  by intros [= <-].
Qed.

(** The anchors of the body are those of the table of contents, less the
    anchors of the skipped files, in the same order. *)
Lemma section_anchors_sublist w repo_path (items : list (nat * path)) :
  section_anchor <$> omap (section_of markdown w repo_path) items
  `sublist_of` nav_anchor repo_path <$> items.
Proof.
  induction items as [|item items IH]; [done|].
  rewrite fmap_cons. cbn [omap list_omap].
  destruct (section_of markdown w repo_path item) as [s|] eqn:E.
  - rewrite fmap_cons, (section_of_anchor _ _ _ _ E). by apply sublist_skip.
  - by apply sublist_cons.
Qed.

Lemma skipped_anchor_absent w repo_path i (md_files : list path) item :
  item ∈ enumerate_from i md_files →
  section_of markdown w repo_path item = None →
  nav_anchor repo_path item
  ∉ section_anchor
    <$> omap (section_of markdown w repo_path) (enumerate_from i md_files).
Proof.
  intros Hitem Hnone (s & Hs & Hin)%list_elem_of_fmap.
  apply list_elem_of_omap in Hin as (item' & Hitem' & Hsec).
  rewrite (section_of_anchor _ _ _ _ Hsec) in Hs.
  apply (nav_anchor_inj repo_path i md_files) in Hs; [|done..].
  congruence.
Qed.

End Sections.

(** ** Claims about anchors and the table of contents *)

(** C2. Within one run, two different files get different anchors,
    whatever their relative paths are: the decimal index between
    ["section-"] and the next hyphen already tells them apart. *)
Theorem anchors_pairwise_distinct (md_files : list path)
    (i j : nat) (f g r s : path) :
  (i, f) ∈ enumerate md_files → (j, g) ∈ enumerate md_files → f ≠ g →
  anchor_of i r ≠ anchor_of j s.
Proof.
  intros Hf Hg Hne Heq. apply anchor_of_index in Heq as ->.
  apply Hne. by apply (enumerate_from_functional 0 md_files j).
Qed.

Lemma anchors_pairwise_distinct_witness :
  sanitize_anchor (str_path ["a"; "b.md"]) = sanitize_anchor (str_path ["ab.md"])
  ∧ anchor_of 0 ["a"; "b.md"] ≠ anchor_of 1 ["ab.md"].
Proof.
  split; [reflexivity|].
  apply (anchors_pairwise_distinct [["a"; "b.md"]; ["ab.md"]] 0 1
           ["a"; "b.md"] ["ab.md"]).
  - vm_compute. apply list_elem_of_here.
  - vm_compute. apply list_elem_of_further, list_elem_of_here.
  - discriminate.
Defined.

Lemma three_files_found :
  find_md_files Examples.three_files Examples.root
  = [ ["/"; "r"; "a.md"]; ["/"; "r"; "c.md"]; ["/"; "r"; "sub"; "b.md"] ].
Proof. vm_compute. reflexivity. Qed.

(** C1, at the scenario of the specification ([a.md], an empty [sub/b.md],
    [c.md]): the loop appends three entries to the table of contents, the
    third one for the empty file, and collects at most two sections, none
    of them under the anchor of the third entry. *)
Theorem toc_lists_the_empty_file (markdown : string → result string) :
  ∃ content_sections σ',
    for_fold (enumerate (find_md_files Examples.three_files Examples.root))
             ("", []) (process_file markdown Examples.three_files Examples.root)
             Examples.initial
    = (Return
         (toc_entry "margin-left: 0px;" "section-0-amd" "a.md"
          +:+ toc_entry "margin-left: 0px;" "section-1-cmd" "c.md"
          +:+ toc_entry "margin-left: 20px;" "section-2-subbmd" "sub/b.md",
          content_sections), σ')
    ∧ (length content_sections ≤ 2)%nat
    ∧ ("section-2-subbmd" ∉ section_anchor <$> content_sections)
    ∧ (EmptyFile ["sub"; "b.md"] ∈ console σ').
Proof.
  eexists _, _. split.
  - unfold enumerate. rewrite process_files_run by apply find_md_files_below.
    rewrite three_files_found. cbn [enumerate_from fmap list_fmap].
    reflexivity.
  - set (w := Examples.three_files). set (root := Examples.root).
    cbn [enumerate_from omap list_omap].
    assert (Hb : section_of markdown w root (2, ["/"; "r"; "sub"; "b.md"]) = None)
      by (vm_compute; reflexivity).
    assert (Hm : message_of markdown w root (2, ["/"; "r"; "sub"; "b.md"])
                 = Some (EmptyFile ["sub"; "b.md"]))
      by (vm_compute; reflexivity).
    rewrite Hb, Hm. split_and!.
    + destruct (section_of markdown w root (0, _)),
        (section_of markdown w root (1, _)); simpl; lia.
    + destruct (section_of markdown w root (0, _)) as [s0|] eqn:E0;
      destruct (section_of markdown w root (1, _)) as [s1|] eqn:E1;
      try apply section_of_anchor in E0; try apply section_of_anchor in E1;
      cbn [app option_list fmap list_fmap]; rewrite ?E0, ?E1;
      intros H; repeat (apply elem_of_cons in H as [H|H]; [discriminate H|]);
      by apply elem_of_nil in H.
    + unfold say. cbn [console option_list app].
      destruct (message_of markdown w root (0, _)),
        (message_of markdown w root (1, _));
        repeat first [apply list_elem_of_here | apply list_elem_of_further].
Qed.

(** ** Claims about the whole run *)

Section Claims.

Variable markdown : string → result string.
Variable weasyprint : string → string → render_result.




(** Whatever the world, the function returns: no exception leaves it. *)
Lemma create_pdf_from_repo_returns w repo_path output_name σ :
  ∃ σ', create_pdf_from_repo markdown weasyprint w repo_path output_name σ
        = (Return (), σ').
Proof.
  destruct (path_exists w repo_path) eqn:Hex.
  - destruct (decide (find_md_files w repo_path = [])) as [Hnone|Hsome].
    + eexists. by apply create_pdf_from_repo_empty.
    + rewrite create_pdf_from_repo_render by done.
      rewrite generate_pdf_run. destruct (weasyprint _ _); by eexists.
  - eexists. by apply create_pdf_from_repo_missing.
Qed.


(** When the root does not exist, or holds no markdown file, the function
    prints its diagnostic and returns; it changes nothing but the
    console. *)
Lemma aborted_run w repo_path output_name σ :
  path_exists w repo_path = false ∨ find_md_files w repo_path = [] →
  ∃ msgs,
    create_pdf_from_repo markdown weasyprint w repo_path output_name σ
    = (Return (), say σ msgs)
    ∧ (MissingDirectory repo_path ∈ msgs ∨ NoMarkdown repo_path ∈ msgs).
Proof.
  intros Hcase. destruct (path_exists w repo_path) eqn:Hex.
  - destruct Hcase as [?|Hnone]; [done|].
    eexists. split; [by apply create_pdf_from_repo_empty|].
    right. apply elem_of_app. left.
    do 3 apply list_elem_of_further. apply list_elem_of_here.
  - eexists. split; [by apply create_pdf_from_repo_missing|].
    left. do 2 apply list_elem_of_further. apply list_elem_of_here.
Qed.

(** The listing that ends the [__main__] block stops with the exception
    of [stat] at the first name that has no file behind it. *)
Lemma final_listing_raises w (l : list string) σ pdf_file :
  pdf_file ∈ l → outputs σ !! pdf_file = None →
  ∃ msgs,
    for_each l (λ pdf_file, size ← stat_size pdf_file;
                            print (PdfFile (cwd w) pdf_file size)) σ
    = (Raise "FileNotFoundError", say σ msgs).
Proof.
  intros Hin Hnone. revert σ Hnone.
  induction l as [|f l IH]; intros σ Hnone; [by apply elem_of_nil in Hin|].
  cbn [for_each]. destruct (outputs σ !! f) as [bytes|] eqn:Hf.
  - apply elem_of_cons in Hin as [->|Hin]; [congruence|].
    destruct (IH Hin (say σ [PdfFile (cwd w) f (String.length bytes)]) Hnone)
      as [msgs Hmsgs].
    eexists. erewrite bind_return; last first.
    { erewrite bind_return; [apply print_run|].
      unfold stat_size. by rewrite Hf. }
    rewrite Hmsgs. by rewrite say_say.
  - exists []. erewrite bind_raise; last first.
    { erewrite bind_raise; [reflexivity|]. unfold stat_size. by rewrite Hf. }
    by rewrite say_nil.
Qed.

(** C5, where the code departs from it. With a missing root, or without
    markdown files, the function prints its diagnostic and returns, the
    rendering engine is not called and no file is written; but the
    [__main__] block then lists the working directory, and a dangling link
    named [*.pdf] there makes the [stat] of line 272, which no [try]
    encloses, end the process with [FileNotFoundError]. *)
Theorem final_listing_crashes_on_dangling_link (links : list string)
    (w : world) (σ : state) (pdf_file : string) :
  path_exists w docs_root = false ∨ find_md_files w docs_root = [] →
  pdf_file ∈ links → endswith pdf_file ".pdf" = true →
  "/"%char ∉ chars pdf_file → outputs σ !! pdf_file = None →
  ∃ σ',
    main_links markdown weasyprint links w σ = (Raise "FileNotFoundError", σ')
    ∧ outputs σ' = outputs σ
    ∧ rendered σ' = rendered σ
    ∧ (MissingDirectory docs_root ∈ console σ'
       ∨ NoMarkdown docs_root ∈ console σ')
    ∧ FinalResults ∈ console σ'.
Proof.
  intros Hcase Hlink Hpdf Hhere Hnone.
  destruct (aborted_run w docs_root docs_name σ Hcase) as (msgs & Hrun & Hdiag).
  unfold main_links. erewrite bind_return by exact Hrun.
  erewrite bind_return by apply print_run. rewrite say_say.
  erewrite bind_return by reflexivity.
  edestruct (final_listing_raises w) as [msgs' Hraise]; last first.
  { rewrite Hraise. eexists. split; [reflexivity|].
    cbn [outputs rendered console say]. split_and!; [done..| |].
    - destruct Hdiag as [Hd|Hd]; [left|right];
        apply elem_of_app; left; apply elem_of_app; right;
        apply elem_of_app; by left.
    - apply elem_of_app. left. apply elem_of_app. right.
      apply elem_of_app. right. apply list_elem_of_here. }
  - exact Hnone.
  - apply list_elem_of_filter. split; [done|].
    apply elem_of_app. right. by apply list_elem_of_filter.
Qed.

Lemma glob_pdf_links_nil σ : glob_pdf_links [] σ = glob_pdf σ.
Proof. unfold glob_pdf_links, glob_pdf. cbn. by rewrite app_nil_r. Qed.

(** Without dangling links the block is [main]. *)
Lemma main_links_nil w σ :
  main_links markdown weasyprint [] w σ = main markdown weasyprint w σ.
Proof.
  unfold main_links, main, mbind, M_bind.
  destruct (create_pdf_from_repo _ _ _ _ _ σ) as [[[]|e] σ1]; [|done].
  destruct (print FinalResults σ1) as [[[]|e] σ2]; [|done].
  by rewrite glob_pdf_links_nil.
Qed.


(** C9. In a run that produces a composite document, the count written
    after ["Total files: "] in the head of the document, and the count of
    the ["Found ... markdown files"] line, is the number of regular files
    that discovery matched, whatever becomes of them afterwards. *)
Theorem total_files_counts_discovered (w : world) (repo_path : path)
    (output_name : string) (σ : state) :
  path_exists w repo_path = true →
  find_md_files w repo_path ≠ [] →
  let n := length (filter (λ md_file, is_file w md_file = true)
                          (rglob w repo_path ".md")) in
  ∃ σ' rest,
    create_pdf_from_repo markdown weasyprint w repo_path output_name σ
    = (Return (), σ')
    ∧ rendered σ'
      = rendered σ
        ++ [(output_name +:+ ".pdf",
             html_head output_name (str_path (absolute (cwd w) repo_path))
                       (str_nat n) +:+ rest)]
    ∧ Found n ∈ console σ'.
Proof.
  intros Hex Hsome n.
  assert (Hn : length (find_md_files w repo_path) = n)
    by (by rewrite find_md_files_perm).
  rewrite create_pdf_from_repo_render by done. rewrite generate_pdf_run.
  assert (Hfound : ∀ l1 l2,
    Found n ∈ (console σ ++ ([Searching (absolute (cwd w) repo_path);
                              DirectoryExists true]
                             ++ discovery_report w repo_path ++ l1)) ++ l2).
  { intros l1 l2. apply elem_of_app. left. apply elem_of_app. right.
    do 2 apply list_elem_of_further. unfold discovery_report.
    rewrite Hn. apply list_elem_of_here. }
  unfold document, document_of. rewrite Hn.
  destruct (weasyprint _ _); eexists _, _;
    (split; [reflexivity|]); cbn [rendered console say];
    (split; [reflexivity|apply Hfound]).
Qed.

(** ** Claims about the composite document *)

Lemma message_logged w repo_path items item m σ :
  item ∈ items → message_of markdown w repo_path item = Some m →
  m ∈ console (say σ (omap (message_of markdown w repo_path) items)).
Proof.
  intros Hitem Hm. unfold say. cbn [console]. apply elem_of_app. right.
  apply list_elem_of_omap. eauto.
Qed.

(** C6. A file that is blank after [strip], a file that cannot be read
    and a file that the converter rejects each print their line and get
    no section; the loop goes on to the end of the list, so that every
    other file that converts gets its section; and the function
    returns. *)
Theorem skipped_files_do_not_stop_the_run (w : world) (repo_path : path)
    (output_name html_content : string) (σ : state) :
  let md_files := find_md_files w repo_path in
  (∃ σ'',
     create_pdf_from_repo markdown weasyprint w repo_path output_name σ
     = (Return (), σ''))
  ∧ ∃ html_content' content_sections σ',
      for_fold (enumerate md_files) (html_content, [])
               (process_file markdown w repo_path) σ
      = (Return (html_content', content_sections), σ')
      ∧ ∀ i md_file r,
          (i, md_file) ∈ enumerate md_files →
          relative_to md_file repo_path = Some r →
          (∀ md_content,
             fs w !! md_file = Some (RegularFile (Text md_content)) →
             strip md_content = "" →
             EmptyFile r ∈ console σ'
             ∧ anchor_of i r ∉ section_anchor <$> content_sections)
          ∧ (∀ e,
               fs w !! md_file = Some (RegularFile (ReadError e)) →
               ErrorProcessing md_file e ∈ console σ'
               ∧ anchor_of i r ∉ section_anchor <$> content_sections)
          ∧ (∀ md_content e,
               fs w !! md_file = Some (RegularFile (Text md_content)) →
               strip md_content ≠ "" → markdown md_content = Raise e →
               ErrorProcessing md_file e ∈ console σ'
               ∧ anchor_of i r ∉ section_anchor <$> content_sections)
          ∧ (∀ md_content html_section,
               fs w !! md_file = Some (RegularFile (Text md_content)) →
               strip md_content ≠ "" →
               markdown md_content = Return html_section →
               (anchor_of i r, r, html_section) ∈ content_sections).
Proof.
  intros md_files. split; [apply create_pdf_from_repo_returns|].
  eexists _, _, _. split.
  { unfold enumerate. apply process_files_run, find_md_files_below. }
  rewrite app_nil_l. intros i md_file r Hitem Hr.
  assert (Hanchor : nav_anchor repo_path (i, md_file) = anchor_of i r).
  { unfold nav_anchor, relative. simpl. by rewrite Hr. }
  assert (Hskip : ∀ m,
    section_of markdown w repo_path (i, md_file) = None →
    message_of markdown w repo_path (i, md_file) = Some m →
    m ∈ console (say σ (omap (message_of markdown w repo_path)
                             (enumerate_from 0 md_files)))
    ∧ anchor_of i r
      ∉ section_anchor
        <$> omap (section_of markdown w repo_path) (enumerate_from 0 md_files)).
  { intros m Hsec Hmsg. split; [by eapply message_logged|].
    rewrite <- Hanchor. by apply skipped_anchor_absent. }
  unfold section_of, message_of, outcome_of, relative in Hskip.
  simpl in Hskip. rewrite Hr in Hskip. simpl in Hskip.
  split_and!.
  - intros md_content Hfile Hblank. apply Hskip; rewrite Hfile;
      by rewrite decide_True.
  - intros e Hfile. apply Hskip; by rewrite Hfile.
  - intros md_content e Hfile Hblank Hmd. apply Hskip; rewrite Hfile;
      rewrite decide_False by done; by rewrite Hmd.
  - intros md_content html_section Hfile Hblank Hmd.
    apply list_elem_of_omap. exists (i, md_file). split; [done|].
    unfold section_of, outcome_of. simpl. rewrite Hfile.
    rewrite decide_False by done. rewrite Hmd, Hanchor.
    unfold relative. by rewrite Hr.
Qed.

(** C8. The composite document is the head, then one entry of the table
    of contents per discovered file in sorted order, then the closing of
    the table, then the sections, then the closing of the document. The
    sections are exactly those of the files that converted; no anchor
    occurs twice, in the table or in the body, so each converted file is
    there once in both; and the anchors of the body are a sublist of those
    of the table: the two orders agree. *)
Theorem document_is_toc_then_sections (w : world) (repo_path : path)
    (output_name : string) (σ : state) :
  let md_files := find_md_files w repo_path in
  let items := enumerate md_files in
  ∃ content_sections σ',
    build_html markdown w repo_path output_name md_files σ
    = (Return
         (html_head output_name (str_path (absolute (cwd w) repo_path))
                    (str_nat (length md_files))
          +:+ concat_str (nav_entry repo_path <$> items)
          +:+ toc_close
          +:+ concat_str (section_text <$> content_sections)
          +:+ html_close), σ')
    ∧ StronglySorted path_le md_files
    ∧ NoDup (nav_anchor repo_path <$> items)
    ∧ NoDup (section_anchor <$> content_sections)
    ∧ section_anchor <$> content_sections
      `sublist_of` nav_anchor repo_path <$> items
    ∧ (∀ item html_section,
         item ∈ items →
         outcome_of markdown w item.2 = Converted html_section
         ↔ (nav_anchor repo_path item, relative repo_path item.2,
            html_section) ∈ content_sections).
Proof.
  intros md_files items.
  exists (omap (section_of markdown w repo_path) items). eexists.
  split; [apply build_html_run, find_md_files_below|].
  assert (Hsub := section_anchors_sublist markdown w repo_path items).
  assert (Hnav := NoDup_nav_anchors repo_path 0 md_files).
  split_and!; try done.
  - apply Sorted_StronglySorted; [apply _|apply Sorted_find_md_files].
  - by eapply sublist_NoDup.
  - intros item html_section Hitem. rewrite list_elem_of_omap. split.
    + intros Hout. exists item. split; [done|].
      unfold section_of. by rewrite Hout.
    + intros (item' & Hitem' & Hsec).
      assert (item' = item) as ->.
      { apply (nav_anchor_inj repo_path 0 md_files); [done..|].
        apply section_of_anchor in Hsec. done. }
      unfold section_of in Hsec.
      destruct (outcome_of markdown w item.2); congruence.
Qed.

(** ** Determinism of the assembly *)

Lemma find_md_files_unique w1 w2 repo_path :
  (∀ p, p ∈ find_md_files w1 repo_path ↔ p ∈ find_md_files w2 repo_path) →
  find_md_files w1 repo_path = find_md_files w2 repo_path.
Proof.
  intros Hsame. apply (Sorted_unique path_le);
    [apply Sorted_find_md_files..|].
  apply NoDup_Permutation; [apply NoDup_find_md_files..|done].
Qed.





End Claims.
Lemma final_listing_crashes_on_dangling_link_witness :
  ∃ σ',
    main_links Examples.markdown Examples.weasyprint ["stale.pdf"]
      Examples.nothing Examples.initial
    = (Raise "FileNotFoundError", σ')
    ∧ console σ'
      = [Searching docs_root; DirectoryExists false;
         MissingDirectory docs_root; FinalResults].
Proof.
  destruct (final_listing_crashes_on_dangling_link Examples.markdown
              Examples.weasyprint ["stale.pdf"] Examples.nothing
              Examples.initial "stale.pdf")
    as (σ' & Hrun & _).
  - left. vm_compute. reflexivity.
  - apply list_elem_of_here.
  - reflexivity.
  - vm_compute. intros H.
    repeat (apply elem_of_cons in H as [H|H]; [discriminate H|]).
    by apply elem_of_nil in H.
  - reflexivity.
  - exists σ'. split; [exact Hrun|].
    vm_compute in Hrun. by injection Hrun as <-.
Defined.

Example missing_root_console :
  console (create_pdf_from_repo Examples.markdown Examples.weasyprint
             Examples.nothing Examples.root "out" Examples.initial).2
  = [Searching ["/"; "r"]; DirectoryExists false; MissingDirectory ["/"; "r"]].
Proof. vm_compute. reflexivity. Qed.

Example no_markdown_console :
  console (create_pdf_from_repo Examples.markdown Examples.weasyprint
             Examples.no_markdown Examples.root "out" Examples.initial).2
  = [Searching ["/"; "r"]; DirectoryExists true; Found 0;
     NoMarkdown ["/"; "r"]; FilesInDirectory; Listed ["notes.txt"]].
Proof. vm_compute. reflexivity. Qed.


Lemma total_files_counts_discovered_witness :
  length (filter (λ md_file, is_file Examples.three_files md_file = true)
                 (rglob Examples.three_files Examples.root ".md")) = 3
  ∧ ∃ σ' rest,
      create_pdf_from_repo Examples.markdown Examples.weasyprint
        Examples.three_files Examples.root "out" Examples.initial
      = (Return (), σ')
      ∧ rendered σ'
        = rendered Examples.initial
          ++ [("out.pdf",
               html_head "out"
                 (str_path (absolute (cwd Examples.three_files) Examples.root))
                 (str_nat
                    (length
                       (filter
                          (λ md_file, is_file Examples.three_files md_file = true)
                          (rglob Examples.three_files Examples.root ".md"))))
               +:+ rest)]
      ∧ Found (length
                 (filter
                    (λ md_file, is_file Examples.three_files md_file = true)
                    (rglob Examples.three_files Examples.root ".md")))
        ∈ console σ'.
Proof.
  split; [vm_compute; reflexivity|].
  apply (total_files_counts_discovered Examples.markdown Examples.weasyprint
           Examples.three_files Examples.root "out" Examples.initial).
  - vm_compute. reflexivity.
  - rewrite three_files_found. discriminate.
Defined.



Lemma skipped_files_do_not_stop_the_run_witness :
  ∃ html_content content_sections σ',
    for_fold (enumerate (find_md_files Examples.three_files Examples.root))
             ("", []) (process_file Examples.markdown Examples.three_files
                         Examples.root) Examples.initial
    = (Return (html_content, content_sections), σ')
    ∧ EmptyFile ["sub"; "b.md"] ∈ console σ'
    ∧ (anchor_of 1 ["c.md"], ["c.md"], "<p>## X</p>") ∈ content_sections.
Proof.
  destruct (skipped_files_do_not_stop_the_run Examples.markdown
              Examples.weasyprint Examples.three_files Examples.root
              "out" "" Examples.initial)
    as [_ (html_content & content_sections & σ' & Hrun & Hfiles)].
  exists html_content, content_sections, σ'. split; [exact Hrun|]. split.
  - destruct (Hfiles 2 ["/"; "r"; "sub"; "b.md"] ["sub"; "b.md"])
      as (Hblank & _).
    + rewrite three_files_found. vm_compute.
      do 2 apply list_elem_of_further. apply list_elem_of_here.
    + reflexivity.
    + apply (Hblank ""); [vm_compute; reflexivity|reflexivity].
  - destruct (Hfiles 1 ["/"; "r"; "c.md"] ["c.md"])
      as (_ & _ & _ & Hconverted).
    + rewrite three_files_found. vm_compute.
      apply list_elem_of_further, list_elem_of_here.
    + reflexivity.
    + apply (Hconverted "## X" "<p>## X</p>");
        [vm_compute; reflexivity|vm_compute; discriminate|reflexivity].
Defined.

Lemma document_is_toc_then_sections_witness :
  ∃ content_sections,
    section_anchor <$> content_sections
    `sublist_of` nav_anchor Examples.root
                 <$> enumerate (find_md_files Examples.three_files Examples.root)
    ∧ (nav_anchor Examples.root (1, ["/"; "r"; "c.md"]),
       relative Examples.root ["/"; "r"; "c.md"], "<p>## X</p>")
      ∈ content_sections.
Proof.
  destruct (document_is_toc_then_sections Examples.markdown
              Examples.three_files Examples.root "out" Examples.initial)
    as (content_sections & σ' & _ & _ & _ & _ & Hsub & Hconverted).
  exists content_sections. split; [exact Hsub|].
  apply (Hconverted (1, ["/"; "r"; "c.md"]) "<p>## X</p>").
  - rewrite three_files_found. vm_compute.
    apply list_elem_of_further, list_elem_of_here.
  - vm_compute. reflexivity.
Defined.

(** The scenario of the specification, run to the end: three entries are
    counted and listed, one file is reported empty. *)
Example three_files_console :
  console (create_pdf_from_repo Examples.markdown Examples.weasyprint
             Examples.three_files Examples.root "out" Examples.initial).2
  = [Searching ["/"; "r"]; DirectoryExists true; Found 3;
     Listed ["a.md"]; Listed ["c.md"]; Listed ["sub"; "b.md"];
     EmptyFile ["sub"; "b.md"]; GeneratingPDF "out.pdf";
     Generated ["/"; "tmp"] "out.pdf" 8].
Proof. vm_compute. reflexivity. Qed.

(** In that run the head of the document says three files, the table of
    contents has three entries and the body two sections. *)
Example three_files_counts :
  length (nav_entry Examples.root
          <$> enumerate (find_md_files Examples.three_files Examples.root)) = 3
  ∧ length (omap (section_of Examples.markdown Examples.three_files
                    Examples.root)
              (enumerate (find_md_files Examples.three_files Examples.root)))
    = 2.
Proof. split; vm_compute; reflexivity. Qed.

(** * Part III: further properties of the script *)

(** ** [sanitize_anchor] once more *)

Lemma after_trim_kept c :
  not_word_space_hyphen c = false → not_word_space_hyphen (after_trim c) = false.
Proof. by_code_points c. Qed.

Lemma kept_space_or_mark c :
  not_word_space_hyphen c = false →
  isspace c = true ↔ is_word c = false ∧ c ≠ "-"%char.
Proof.
  destruct c as [[] [] [] [] [] [] [] []]; vm_compute; intros Hk;
    try discriminate Hk;
    (split;
     [intros Hs; try discriminate Hs;
      (split; [reflexivity|intros Hm; discriminate Hm])
     |intros [Hw Hm]; try reflexivity; try discriminate Hw;
      exfalso; apply Hm; reflexivity]).
Qed.

Lemma deleted_is_no_mark c :
  not_word_space_hyphen c = true → is_word c = false ∧ c ≠ "-"%char.
Proof.
  destruct c as [[] [] [] [] [] [] [] []]; vm_compute; intros Hk;
    try discriminate Hk; (split; [reflexivity|intros Hm; discriminate Hm]).
Qed.

Lemma chars_nil s : chars s = [] ↔ s = "".
Proof. destruct s; split; intros; simplify_eq/=; done. Qed.

Lemma lstrip_blank s :
  Forall (λ c, isspace c = true) (chars (lstrip s))
  ↔ Forall (λ c, isspace c = true) (chars s).
Proof.
  induction s as [|a s IH]; simpl; [done|].
  destruct (isspace a) eqn:E; [|done].
  rewrite IH, Forall_cons. tauto.
Qed.

Lemma rstrip_empty s :
  rstrip s = "" ↔ Forall (λ c, isspace c = true) (chars s).
Proof.
  induction s as [|a s IH]; simpl; [split; [constructor|done]|].
  rewrite Forall_cons, <- IH.
  destruct (rstrip s) as [|b r]; destruct (isspace a); split;
    try done; try (by intros [? ?]); by intros _.
Qed.

(** [strip] gives the empty text exactly on whitespace. *)
Lemma strip_empty s :
  strip s = "" ↔ Forall (λ c, isspace c = true) (chars s).
Proof. unfold strip. by rewrite rstrip_empty, lstrip_blank. Qed.

Lemma lstrip_fixed s :
  (∀ c, head (chars s) = Some c → isspace c = false) → lstrip s = s.
Proof.
  destruct s as [|a s]; simpl; [done|]. intros H.
  by rewrite (H a eq_refl).
Qed.

Lemma rstrip_fixed s :
  (∀ c, last (chars s) = Some c → isspace c = false) → rstrip s = s.
Proof.
  induction s as [|a s IH]; simpl; [done|]. intros H.
  destruct s as [|b s].
  - simpl. by rewrite (H a eq_refl).
  - rewrite IH by (intros c Hc; by apply H). done.
Qed.

Lemma re_sub_delete_fixed cls s :
  Forall (λ c, cls c = false) (chars s) → re_sub_delete cls s = s.
Proof.
  induction s as [|a s IH]; simpl; [done|].
  intros [Ha Hs]%Forall_cons. by rewrite Ha, IH.
Qed.

Lemma replace_fixed old new s : old ∉ chars s → replace old new s = s.
Proof.
  induction s as [|a s IH]; simpl; [done|].
  intros [Ha Hs]%not_elem_of_cons.
  rewrite IH by done. destruct (Ascii.eqb_spec a old); congruence.
Qed.

Lemma sanitize_anchor_chars text :
  chars (sanitize_anchor text)
  = after_trim
    <$> chars (strip (re_sub_delete not_word_space_hyphen text)).
Proof. apply chars_lower_replace. Qed.

Lemma strip_kept text :
  Forall (λ c, not_word_space_hyphen c = false)
         (chars (strip (re_sub_delete not_word_space_hyphen text))).
Proof.
  apply Forall_forall. intros c Hc.
  pose proof (elem_of_sublist _ _ _ Hc (strip_sublist _)) as Hc'.
  rewrite chars_re_sub_delete in Hc'.
  by apply list_elem_of_filter in Hc' as [? _].
Qed.

(** X1. Sanitizing is idempotent: a sanitized text is left as it is. *)
Theorem sanitize_anchor_idempotent (text : string) :
  sanitize_anchor (sanitize_anchor text) = sanitize_anchor text.
Proof.
  set (out := sanitize_anchor text).
  set (kept := re_sub_delete not_word_space_hyphen text).
  assert (Hchars : chars out = after_trim <$> chars (strip kept))
    by apply sanitize_anchor_chars.
  assert (Hkept : re_sub_delete not_word_space_hyphen out = out).
  { apply re_sub_delete_fixed. rewrite Hchars. apply Forall_fmap.
    eapply Forall_impl; [apply strip_kept|]. intros c. apply after_trim_kept. }
  assert (Hhead : ∀ c, head (chars out) = Some c → isspace c = false).
  { intros c. rewrite Hchars.
    pose proof (head_strip kept) as Hs.
    destruct (chars (strip kept)) as [|c0 l]; [done|].
    intros [= <-]. by apply after_trim_not_space, Hs. }
  assert (Hlast : ∀ c, last (chars out) = Some c → isspace c = false).
  { intros c. rewrite Hchars, fmap_last.
    pose proof (last_strip kept) as Hs.
    destruct (last (chars (strip kept))) as [c0|]; [|done].
    intros [= <-]. by apply after_trim_not_space, Hs. }
  assert (Hblank : " "%char ∉ chars out).
  { rewrite Hchars. intros [c [Hc _]]%list_elem_of_fmap.
    by apply (after_trim_no_blank c). }
  assert (Hlower : lower out = out).
  { apply chars_inj. rewrite chars_lower, Hchars, <- list_fmap_compose.
    apply list_fmap_ext. intros _ c _. apply after_trim_lower. }
  unfold sanitize_anchor at 1. fold out. rewrite Hkept. unfold strip.
  by rewrite (lstrip_fixed out Hhead), (rstrip_fixed out Hlast),
    (replace_fixed _ _ out Hblank).
Qed.

(** X2. The result is empty exactly when the text holds no word character
    and no hyphen: punctuation and whitespace alone leave nothing. *)
Theorem sanitize_anchor_empty (text : string) :
  sanitize_anchor text = ""
  ↔ Forall (λ c, is_word c = false ∧ c ≠ "-"%char) (chars text).
Proof.
  assert (Hout : sanitize_anchor text = ""
                 ↔ strip (re_sub_delete not_word_space_hyphen text) = "").
  { rewrite <- !chars_nil, sanitize_anchor_chars. split.
    - apply fmap_nil_inv.
    - by intros ->. }
  rewrite Hout, strip_empty, chars_re_sub_delete, !Forall_forall. split.
  - intros H c Hc.
    destruct (not_word_space_hyphen c) eqn:E; [by apply deleted_is_no_mark|].
    apply kept_space_or_mark; [done|]. apply H.
    by apply list_elem_of_filter.
  - intros H c [Hkept Hc]%list_elem_of_filter.
    apply kept_space_or_mark; [done|]. by apply H.
Qed.

Example sanitize_anchor_punctuation : sanitize_anchor " ../?! " = "".
Proof. reflexivity. Qed.

(** X3. Sanitizing a text of code points up to U+00FF never makes it
    longer. *)
Theorem sanitize_anchor_length (text : string) :
  (String.length (sanitize_anchor text) ≤ String.length text)%nat.
Proof.
  assert (Hlen : ∀ s, String.length s = length (chars s)).
  { induction s as [|a s IH]; simpl; [done|]. by rewrite IH. }
  rewrite !Hlen, sanitize_anchor_chars, length_fmap.
  etrans; [apply sublist_length, strip_sublist|].
  rewrite chars_re_sub_delete. apply length_filter.
Qed.

(** ** The loop body, file by file *)

Section Further.

Variable markdown : string → result string.
Variable weasyprint : string → string → render_result.

(** X4. A readable file is reported as empty, without consulting the
    converter, exactly when its content is whitespace from end to end. *)
Theorem blank_file_iff_whitespace (w : world) (repo_path : path)
    (html_content : string) (content_sections : list section) (i : nat)
    (md_file r : path) (md_content : string) (σ : state) :
  relative_to md_file repo_path = Some r →
  fs w !! md_file = Some (RegularFile (Text md_content)) →
  (process_file markdown w repo_path (html_content, content_sections)
                (i, md_file) σ).2 = say σ [EmptyFile r]
  ↔ Forall (λ c, isspace c = true) (chars md_content).
Proof.
  intros Hr Hfile. rewrite process_file_run by (simpl; by eexists).
  rewrite <- strip_empty. unfold message_of, outcome_of, relative. simpl.
  rewrite Hfile, Hr. simpl.
  destruct (decide (strip md_content = "")) as [Hblank|Hblank];
    [done|]. split; [|done].
  unfold say. intros Heq.
  assert (Hc : console σ ++ option_list
                 match match markdown md_content with
                       | Return html_section => Converted html_section
                       | Raise e => Failed e
                       end with
                 | Converted _ => None
                 | Blank => Some (EmptyFile r)
                 | Failed e => Some (ErrorProcessing md_file e)
                 end = console σ ++ [EmptyFile r]) by congruence.
  apply app_inv_head in Hc. destruct (markdown md_content); discriminate Hc.
Qed.

Lemma sections_and_messages w repo_path (items : list (nat * path)) :
  (length (omap (section_of markdown w repo_path) items)
   + length (omap (message_of markdown w repo_path) items))%nat
  = length items.
Proof.
  induction items as [|item items IH]; [done|].
  cbn [omap list_omap]. unfold section_of at 1, message_of at 1.
  destruct (outcome_of markdown w item.2); simpl in *; lia.
Qed.

(** X6. Every discovered file is accounted for once: it gets a section,
    or else exactly one line on the console; nothing is written and the
    rendering engine is not called while the files are processed. *)
Theorem every_file_is_accounted_for (w : world) (repo_path : path)
    (html_content : string) (σ : state) :
  ∃ html_content' content_sections σ',
    for_fold (enumerate (find_md_files w repo_path)) (html_content, [])
             (process_file markdown w repo_path) σ
    = (Return (html_content', content_sections), σ')
    ∧ (length content_sections + length (console σ'))%nat
      = (length (find_md_files w repo_path) + length (console σ))%nat
    ∧ outputs σ' = outputs σ
    ∧ rendered σ' = rendered σ.
Proof.
  eexists _, _, _. split.
  { unfold enumerate. apply process_files_run, find_md_files_below. }
  split; [|done]. unfold say. cbn [console]. rewrite app_nil_l, length_app.
  pose proof (sections_and_messages w repo_path
                (enumerate_from 0 (find_md_files w repo_path))) as H.
  rewrite enumerate_from_length in H. lia.
Qed.

(** X7. For a discovered file the entry of the table of contents is
    indented by twenty pixels for each directory between the root and
    the file; the relative path is never empty and the indentation never
    negative. *)
Theorem indentation_by_depth (w : world) (repo_path md_file : path) :
  md_file ∈ find_md_files w repo_path →
  ∃ r,
    relative_to md_file repo_path = Some r ∧ r ≠ []
    ∧ ∀ html_content content_sections i σ,
        ∃ content_sections' σ',
          process_file markdown w repo_path (html_content, content_sections)
                       (i, md_file) σ
          = (Return
               (html_content
                +:+ toc_entry
                      ("margin-left: " +:+ str_nat (20 * (length r - 1))
                       +:+ "px;")
                      (anchor_of i r) (str_path r),
                content_sections'), σ').
Proof.
  intros (_ & _ & [Hprefix Hne] & _)%elem_of_find_md_files.
  destruct (relative_to_prefix md_file repo_path Hprefix) as (r & -> & Hr).
  exists r. split; [done|]. split.
  { intros ->. apply Hne. by rewrite app_nil_r. }
  intros html_content content_sections i σ. eexists _, _.
  rewrite process_file_run by (simpl; by eexists).
  unfold nav_entry, nav_anchor, relative. simpl. rewrite Hr. simpl.
  do 4 f_equal. destruct r as [|a r]; [destruct Hne; by rewrite app_nil_r|].
  unfold str_int. simpl length.
  replace ((Z.of_nat (S (length r)) - 1) * 20)%Z
    with (Z.of_nat (20 * (S (length r) - 1))) by lia.
  rewrite (proj2 (Z.ltb_ge _ 0)) by lia. by rewrite Nat2Z.id.
Qed.

End Further.

(** ** Discovery and changes of the file system *)

Lemma reached_insert w root p e q :
  fs w !! p ≠ Some Directory → e ≠ Directory →
  reached (World (<[p := e]> (fs w)) (cwd w)) root q ↔ reached w root q.
Proof.
  intros Hold Hnew. unfold reached. apply Forall_iff. intros k.
  unfold is_dir. simpl. destruct (decide (take k q = p)) as [->|Hne].
  - rewrite lookup_insert_eq.
    destruct e; [|done|]; destruct (fs w !! p) as [[]|];
      split; intros ?; congruence.
  - by rewrite lookup_insert_ne.
Qed.

(** X8. Writing something that is not a directory, under a name that does
    not end with [.md], where no directory stood, does not change what
    discovery returns. *)
Theorem discovery_ignores_other_files (w : world) (repo_path q : path)
    (e : entry) :
  fs w !! q ≠ Some Directory → e ≠ Directory →
  endswith (name q) ".md" = false →
  find_md_files (World (<[q := e]> (fs w)) (cwd w)) repo_path
  = find_md_files w repo_path.
Proof.
  intros Hold Hnew Hname. apply find_md_files_unique. intros p.
  rewrite !elem_of_find_md_files, reached_insert by done.
  unfold is_file. simpl.
  destruct (decide (q = repo_path)) as [->|Hroot].
  - rewrite lookup_insert_eq. split; intros (Hdir & _); [|done].
    by injection Hdir as ->.
  - rewrite lookup_insert_ne by done.
    destruct (decide (p = q)) as [->|Hp].
    + rewrite Hname. split; intros (_ & _ & _ & ? & _); done.
    + by rewrite lookup_insert_ne.
Qed.

(** X9. A regular file whose name ends with [.md], written where the scan
    reaches and where no directory stood, is discovered, and discovery
    returns nothing else that it did not return before. *)
Theorem discovery_finds_new_file (w : world) (repo_path p : path)
    (r : read_result) (q : path) :
  fs w !! repo_path = Some Directory →
  below repo_path p → reached w repo_path p →
  fs w !! p ≠ Some Directory → endswith (name p) ".md" = true →
  q ∈ find_md_files (World (<[p := RegularFile r]> (fs w)) (cwd w)) repo_path
  ↔ q = p ∨ q ∈ find_md_files w repo_path.
Proof.
  intros Hroot Hbelow Hreached Hold Hname.
  assert (Hne : p ≠ repo_path) by (destruct Hbelow as [_ ?]; congruence).
  rewrite !elem_of_find_md_files, reached_insert by done.
  unfold is_file. simpl. rewrite lookup_insert_ne by done.
  destruct (decide (q = p)) as [->|Hq].
  - rewrite lookup_insert_eq. split; [by left|]. by intros _.
  - rewrite lookup_insert_ne by done. split; [by right|].
    by intros [?|?].
Qed.

(** ** The whole run, once more *)

Section FurtherRuns.

Variable markdown : string → result string.
Variable weasyprint : string → string → render_result.

Lemma rglob_not_directory w root suffix r :
  fs w !! root = Some (RegularFile r) → rglob w root suffix = [].
Proof. unfold rglob. by intros ->. Qed.

(** X10. A root that names a regular file is treated as a directory
    without files: the run reports that no markdown files were found,
    lists nothing, and produces no artifact. *)
Theorem root_that_is_a_file (w : world) (repo_path : path)
    (output_name : string) (σ : state) (r : read_result) :
  fs w !! repo_path = Some (RegularFile r) →
  create_pdf_from_repo markdown weasyprint w repo_path output_name σ
  = (Return (),
     say σ [Searching (absolute (cwd w) repo_path); DirectoryExists true;
            Found 0; NoMarkdown repo_path; FilesInDirectory]).
Proof.
  intros He.
  assert (Hnone : find_md_files w repo_path = []).
  { unfold find_md_files. by rewrite (rglob_not_directory w _ _ _ He). }
  rewrite create_pdf_from_repo_empty; [|idtac|done].
  - by rewrite (rglob_not_directory w _ _ _ He).
  - unfold path_exists. rewrite He. by apply bool_decide_eq_true_2.
Qed.

Lemma no_sections_when_all_skipped w repo_path (md_files : list path) i :
  (∀ md_file md_content,
     md_file ∈ md_files →
     fs w !! md_file = Some (RegularFile (Text md_content)) →
     strip md_content = "") →
  omap (section_of markdown w repo_path) (enumerate_from i md_files) = [].
Proof.
  revert i. induction md_files as [|f l IH]; intros i Hblank; [done|].
  cbn [enumerate_from omap list_omap].
  rewrite IH by (intros ???; apply Hblank; by apply list_elem_of_further).
  unfold section_of, outcome_of. simpl.
  destruct (fs w !! f) as [[[c|?]| |]|] eqn:E; try done.
  rewrite decide_True; [done|]. apply (Hblank f c); [|done].
  apply list_elem_of_here.
Qed.

(** X11. When files are discovered but each of them is blank or cannot be
    read, the rendering engine is still called, with a document that has
    the table of contents and no section. *)
Theorem all_files_skipped_still_renders (w : world) (repo_path : path)
    (output_name : string) (σ : state) :
  path_exists w repo_path = true →
  find_md_files w repo_path ≠ [] →
  (∀ md_file md_content,
     md_file ∈ find_md_files w repo_path →
     fs w !! md_file = Some (RegularFile (Text md_content)) →
     strip md_content = "") →
  ∃ σ',
    create_pdf_from_repo markdown weasyprint w repo_path output_name σ
    = (Return (), σ')
    ∧ rendered σ'
      = rendered σ
        ++ [(output_name +:+ ".pdf",
             html_head output_name (str_path (absolute (cwd w) repo_path))
                       (str_nat (length (find_md_files w repo_path)))
             +:+ concat_str (nav_entry repo_path
                             <$> enumerate (find_md_files w repo_path))
             +:+ toc_close +:+ html_close)].
Proof.
  intros Hex Hsome Hblank.
  rewrite create_pdf_from_repo_render by done. rewrite generate_pdf_run.
  assert (Hdoc : document markdown w repo_path output_name
                 = html_head output_name
                     (str_path (absolute (cwd w) repo_path))
                     (str_nat (length (find_md_files w repo_path)))
                   +:+ concat_str (nav_entry repo_path
                                   <$> enumerate (find_md_files w repo_path))
                   +:+ toc_close +:+ html_close).
  { unfold document, document_of, enumerate.
    by rewrite (no_sections_when_all_skipped w repo_path _ 0 Hblank). }
  rewrite Hdoc. destruct (weasyprint _ _); eexists; split; reflexivity.
Qed.

(** X12. When the rendering engine succeeds, the artifact holds exactly
    the bytes it returned, whatever was under that name before, and the
    last line printed reports its size. *)
Theorem rendered_artifact_is_written (w : world) (repo_path : path)
    (output_name : string) (σ : state) (pdf : string) :
  path_exists w repo_path = true →
  find_md_files w repo_path ≠ [] →
  weasyprint (document markdown w repo_path output_name) css_content
  = Rendered pdf →
  ∃ σ',
    create_pdf_from_repo markdown weasyprint w repo_path output_name σ
    = (Return (), σ')
    ∧ outputs σ' = <[output_name +:+ ".pdf" := pdf]> (outputs σ)
    ∧ last (console σ')
      = Some (Generated (cwd w) (output_name +:+ ".pdf") (String.length pdf)).
Proof.
  intros Hex Hsome Hok.
  rewrite create_pdf_from_repo_render by done.
  rewrite generate_pdf_run, Hok. eexists. split; [reflexivity|].
  cbn [outputs console say]. split; [done|]. by rewrite last_app.
Qed.

(** X13. Whatever the outcome of a run, in its final state the console is
    the earlier console with lines appended, and every file of the working
    directory other than [<output_name>.pdf] is as it was. *)
Theorem run_touches_only_the_artifact (w : world) (repo_path : path)
    (output_name : string) (σ : state) :
  let σ' :=
    (create_pdf_from_repo markdown weasyprint w repo_path output_name σ).2 in
  console σ `prefix_of` console σ'
  ∧ ∀ file, file ≠ output_name +:+ ".pdf" →
            outputs σ' !! file = outputs σ !! file.
Proof.
  intros σ'. subst σ'. destruct (path_exists w repo_path) eqn:Hex.
  - destruct (decide (find_md_files w repo_path = [])) as [Hnone|Hsome].
    + rewrite create_pdf_from_repo_empty by done. split; [by eexists|done].
    + rewrite create_pdf_from_repo_render by done. rewrite generate_pdf_run.
      destruct (weasyprint _ _) as [pdf|e [pdf|]];
        cbn [snd console outputs say];
        (split; [rewrite <- app_assoc; by eexists|]);
        intros file Hfile; by rewrite ?lookup_insert_ne.
  - rewrite create_pdf_from_repo_missing by done. split; [by eexists|done].
Qed.

(** X16. When the root does not exist, or holds no markdown file, the run
    ends with the files of the working directory as they were and
    without a call of the rendering engine. *)
Theorem aborted_run_leaves_no_artifact (w : world) (repo_path : path)
    (output_name : string) (σ : state) :
  path_exists w repo_path = false ∨ find_md_files w repo_path = [] →
  let σ' :=
    (create_pdf_from_repo markdown weasyprint w repo_path output_name σ).2 in
  outputs σ' = outputs σ ∧ rendered σ' = rendered σ.
Proof.
  intros Hcase σ'. subst σ'.
  destruct (aborted_run markdown weasyprint w repo_path output_name σ Hcase)
    as (msgs & -> & _).
  done.
Qed.

Lemma final_listing_lines w (l : list string) σ :
  Forall (λ f, is_Some (outputs σ !! f)) l →
  for_each l (λ pdf_file, size ← stat_size pdf_file;
                          print (PdfFile (cwd w) pdf_file size)) σ
  = (Return (),
     say σ (omap (λ f, PdfFile (cwd w) f ∘ String.length <$> outputs σ !! f)
                 l)).
Proof.
  intros Hl. revert σ Hl. induction l as [|f l IH]; intros σ Hl.
  - simpl. unfold mret, M_ret. by rewrite say_nil.
  - apply Forall_cons in Hl as [[bytes Hf] Hl].
    cbn [for_each]. erewrite bind_return; last first.
    { erewrite bind_return; [apply print_run|].
      unfold stat_size. by rewrite Hf. }
    rewrite IH by done. rewrite say_say. cbn [omap list_omap outputs say].
    by rewrite Hf.
Qed.

(** X15. When the function has returned and no dangling link named
    [*.pdf] sits in the working directory, the report that ends the
    [__main__] block has one line, with the size, for every file of the
    working directory itself whose name ends with [.pdf], those that were
    there before the run included. *)
Theorem final_report_lists_every_pdf (links : list string) (w : world)
    (σ σ1 : state) :
  create_pdf_from_repo markdown weasyprint w docs_root docs_name σ
  = (Return (), σ1) →
  (∀ f, f ∈ links → endswith f ".pdf" = true → "/"%char ∉ chars f →
        is_Some (outputs σ1 !! f)) →
  ∃ σ2,
    main_links markdown weasyprint links w σ = (Return (), σ2)
    ∧ outputs σ2 = outputs σ1
    ∧ FinalResults ∈ console σ2
    ∧ ∀ pdf_file bytes,
        outputs σ1 !! pdf_file = Some bytes →
        endswith pdf_file ".pdf" = true → "/"%char ∉ chars pdf_file →
        PdfFile (cwd w) pdf_file (String.length bytes) ∈ console σ2.
Proof.
  intros Hrun Hlinks. eexists. split.
  { unfold main_links. erewrite bind_return by exact Hrun.
    erewrite bind_return by apply print_run.
    erewrite bind_return by reflexivity.
    apply final_listing_lines. apply Forall_forall.
    intros f [[Hpdf Hhere] Hf]%list_elem_of_filter.
    cbn [outputs say] in *.
    apply elem_of_app in Hf as [Hf|Hf].
    - apply list_elem_of_fmap in Hf as ([f' bytes] & -> & Hf).
      apply elem_of_map_to_list in Hf. by eexists.
    - apply list_elem_of_filter in Hf as [_ Hf]. by apply Hlinks. }
  cbn [outputs console say]. split; [done|]. split.
  { apply elem_of_app. left. apply elem_of_app. right.
    apply list_elem_of_here. }
  intros pdf_file bytes Hfile Hpdf Hhere. apply elem_of_app. right.
  apply list_elem_of_omap. exists pdf_file. split.
  - apply list_elem_of_filter. split; [done|].
    apply elem_of_app. left.
    apply list_elem_of_fmap. exists (pdf_file, bytes). split; [done|].
    by apply elem_of_map_to_list.
  - by rewrite Hfile.
Qed.

End FurtherRuns.

(** ** Instances of the further properties *)

Lemma blank_file_iff_whitespace_witness :
  Forall (λ c, isspace c = true) (chars ("  " +:+ String "010" ""))
  ∧ (process_file Examples.markdown Examples.only_blank Examples.root
       ("", []) (0, ["/"; "r"; "blank.md"]) Examples.initial).2
    = say Examples.initial [EmptyFile ["blank.md"]].
Proof.
  assert (Hblank : Forall (λ c, isspace c = true)
                          (chars ("  " +:+ String "010" "")))
    by (repeat constructor).
  split; [exact Hblank|].
  apply (blank_file_iff_whitespace Examples.markdown Examples.only_blank
           Examples.root "" [] 0 ["/"; "r"; "blank.md"] ["blank.md"]
           ("  " +:+ String "010" "") Examples.initial).
  - reflexivity.
  - vm_compute. reflexivity.
  - exact Hblank.
Defined.

Lemma indentation_by_depth_witness :
  ∃ r,
    relative_to ["/"; "r"; "sub"; "b.md"] Examples.root = Some r ∧ r ≠ []
    ∧ ∀ html_content content_sections i σ,
        ∃ content_sections' σ',
          process_file Examples.markdown Examples.three_files Examples.root
            (html_content, content_sections) (i, ["/"; "r"; "sub"; "b.md"]) σ
          = (Return
               (html_content
                +:+ toc_entry
                      ("margin-left: " +:+ str_nat (20 * (length r - 1))
                       +:+ "px;")
                      (anchor_of i r) (str_path r),
                content_sections'), σ').
Proof.
  apply (indentation_by_depth Examples.markdown Examples.three_files
           Examples.root ["/"; "r"; "sub"; "b.md"]).
  rewrite three_files_found.
  do 2 apply list_elem_of_further. apply list_elem_of_here.
Defined.

Lemma discovery_ignores_other_files_witness :
  find_md_files
    (World (<[ ["/"; "r"; "sub"; "notes.txt"] := RegularFile (Text "n") ]>
              (fs Examples.three_files))
           (cwd Examples.three_files))
    Examples.root
  = find_md_files Examples.three_files Examples.root.
Proof.
  apply (discovery_ignores_other_files Examples.three_files Examples.root
           ["/"; "r"; "sub"; "notes.txt"] (RegularFile (Text "n"))).
  - vm_compute. discriminate.
  - discriminate.
  - reflexivity.
Defined.

Lemma discovery_finds_new_file_witness :
  ["/"; "r"; "sub"; "new.md"]
  ∈ find_md_files
      (World (<[ ["/"; "r"; "sub"; "new.md"] := RegularFile (Text "# New") ]>
                (fs Examples.three_files))
             (cwd Examples.three_files))
      Examples.root.
Proof.
  apply (discovery_finds_new_file Examples.three_files Examples.root
           ["/"; "r"; "sub"; "new.md"] (Text "# New")
           ["/"; "r"; "sub"; "new.md"]).
  - vm_compute. reflexivity.
  - split; [by exists ["sub"; "new.md"]|discriminate].
  - apply (bool_decide_eq_true_1 _). vm_compute. reflexivity.
  - vm_compute. discriminate.
  - reflexivity.
  - by left.
Defined.

Lemma root_that_is_a_file_witness :
  create_pdf_from_repo Examples.markdown Examples.weasyprint
    Examples.root_is_file Examples.root "out" Examples.initial
  = (Return (),
     say Examples.initial
       [Searching (absolute (cwd Examples.root_is_file) Examples.root);
        DirectoryExists true; Found 0; NoMarkdown Examples.root;
        FilesInDirectory]).
Proof.
  apply (root_that_is_a_file Examples.markdown Examples.weasyprint
           Examples.root_is_file Examples.root "out" Examples.initial
           (Text "# not a directory")).
  vm_compute. reflexivity.
Defined.

Lemma aborted_run_leaves_no_artifact_witness :
  outputs
    (create_pdf_from_repo Examples.markdown Examples.weasyprint
       Examples.no_markdown Examples.root "out" Examples.with_old_pdf).2
  = outputs Examples.with_old_pdf
  ∧ rendered
      (create_pdf_from_repo Examples.markdown Examples.weasyprint
         Examples.no_markdown Examples.root "out" Examples.with_old_pdf).2
    = rendered Examples.with_old_pdf.
Proof.
  apply (aborted_run_leaves_no_artifact Examples.markdown Examples.weasyprint
           Examples.no_markdown Examples.root "out" Examples.with_old_pdf).
  right. vm_compute. reflexivity.
Defined.

Lemma only_blank_found :
  find_md_files Examples.only_blank Examples.root = [ ["/"; "r"; "blank.md"] ].
Proof. vm_compute. reflexivity. Qed.

Lemma all_files_skipped_still_renders_witness :
  ∃ σ',
    create_pdf_from_repo Examples.markdown Examples.weasyprint
      Examples.only_blank Examples.root "out" Examples.initial
    = (Return (), σ')
    ∧ rendered σ'
      = rendered Examples.initial
        ++ [("out" +:+ ".pdf",
             html_head "out"
               (str_path (absolute (cwd Examples.only_blank) Examples.root))
               (str_nat (length (find_md_files Examples.only_blank
                                   Examples.root)))
             +:+ concat_str
                   (nav_entry Examples.root
                    <$> enumerate (find_md_files Examples.only_blank
                                     Examples.root))
             +:+ toc_close +:+ html_close)].
Proof.
  apply (all_files_skipped_still_renders Examples.markdown
           Examples.weasyprint Examples.only_blank Examples.root "out"
           Examples.initial).
  - vm_compute. reflexivity.
  - rewrite only_blank_found. discriminate.
  - intros md_file md_content. rewrite only_blank_found.
    intros [->|Hin]%elem_of_cons; [|by apply elem_of_nil in Hin].
    intros Hfile. vm_compute in Hfile. injection Hfile as <-. reflexivity.
Defined.

Lemma rendered_artifact_is_written_witness :
  ∃ σ',
    create_pdf_from_repo Examples.markdown Examples.weasyprint
      Examples.three_files Examples.root "out" Examples.initial
    = (Return (), σ')
    ∧ outputs σ' = <["out" +:+ ".pdf" := "%PDF-1.7"]> (outputs Examples.initial)
    ∧ last (console σ')
      = Some (Generated (cwd Examples.three_files) ("out" +:+ ".pdf")
                        (String.length "%PDF-1.7")).
Proof.
  apply (rendered_artifact_is_written Examples.markdown Examples.weasyprint
           Examples.three_files Examples.root "out" Examples.initial
           "%PDF-1.7").
  - vm_compute. reflexivity.
  - rewrite three_files_found. discriminate.
  - reflexivity.
Defined.

Lemma final_report_lists_every_pdf_witness :
  ∃ σ2,
    main_links Examples.markdown Examples.weasyprint ["old.pdf"; "link.txt"]
      Examples.nothing Examples.with_old_pdf = (Return (), σ2)
    ∧ PdfFile ["/"; "tmp"] "old.pdf" 8 ∈ console σ2.
Proof.
  destruct (final_report_lists_every_pdf Examples.markdown
              Examples.weasyprint ["old.pdf"; "link.txt"] Examples.nothing
              Examples.with_old_pdf
              (say Examples.with_old_pdf
                 [Searching (absolute (cwd Examples.nothing) docs_root);
                  DirectoryExists false; MissingDirectory docs_root]))
    as (σ2 & Hmain & _ & _ & Hpdf).
  - apply create_pdf_from_repo_missing. vm_compute. reflexivity.
  - intros f [->|Hf]%elem_of_cons.
    + intros _ _. vm_compute. by eexists.
    + apply elem_of_cons in Hf as [->|Hf]; [discriminate|].
      by apply elem_of_nil in Hf.
  - exists σ2. split; [exact Hmain|].
    apply (Hpdf "old.pdf" "%PDF-old").
    + vm_compute. reflexivity.
    + reflexivity.
    + vm_compute. intros H.
      repeat (apply elem_of_cons in H as [H|H]; [discriminate H|]).
      by apply elem_of_nil in H.
Defined.
